(** * Matcha Piano Sheets API: favorites store, tolerant parser and handlers

    A shallow embedding of [app.py].  Python strings are sequences of
    Unicode code points, JSON values are a tagged union, the remote
    repository is an explicit state threaded through the handlers, and the
    regular expressions of the favorites parser are run by a small
    backtracking matcher that follows the priorities of Python's [re]. *)

From Stdlib Require Import Strings.String Strings.Ascii.
From Stdlib Require Import List NArith ZArith Bool Arith Lia.
Import ListNotations.

Set Implicit Arguments.

(* ================================================================== *)
(** ** Python strings *)

(** A character is its code point; a [str] is a list of them. *)
Definition char := N.
Bind Scope N_scope with char.
Definition pystr := list char.

(** ASCII literals. *)
Definition lit (s : string) : pystr := map N_of_ascii (list_ascii_of_string s).

Definition dquote : char := 34%N.
Definition squote : char := 39%N.
Definition backslash : char := 92%N.
Definition newline : char := 10%N.

Fixpoint str_eqb (a b : pystr) : bool :=
  match a, b with
  | [], [] => true
  | x :: a', y :: b' => N.eqb x y && str_eqb a' b'
  | _, _ => false
  end.

(** [s.startswith(p)] *)
Fixpoint startswith (p s : pystr) : bool :=
  match p, s with
  | [], _ => true
  | x :: p', y :: s' => N.eqb x y && startswith p' s'
  | _ :: _, [] => false
  end.

(** [s.endswith(p)] *)
Definition endswith (s p : pystr) : bool := startswith (rev p) (rev s).

(** [P] holds at the head of some suffix of [s] (the empty suffix included). *)
Fixpoint anywhere (P : pystr -> bool) (s : pystr) : bool :=
  P s || match s with
         | [] => false
         | _ :: s' => anywhere P s'
         end.

(** [needle in hay] on strings. *)
Definition contains (needle hay : pystr) : bool := anywhere (startswith needle) hay.

(** [str.isspace] on one character, which is also what [\s] matches in a
    [str] pattern. *)
Definition is_space (c : char) : bool :=
  ((9 <=? c) && (c <=? 13) || (28 <=? c) && (c <=? 32) || (c =? 133) || (c =? 160)
   || (c =? 5760) || (8192 <=? c) && (c <=? 8202) || (c =? 8232) || (c =? 8233)
   || (c =? 8239) || (c =? 8287) || (c =? 12288))%N.

Fixpoint lstrip_by (p : char -> bool) (s : pystr) : pystr :=
  match s with
  | c :: s' => if p c then lstrip_by p s' else s
  | [] => []
  end.

Definition rstrip_by (p : char -> bool) (s : pystr) : pystr :=
  rev (lstrip_by p (rev s)).

(** [s.strip()] *)
Definition strip (s : pystr) : pystr := rstrip_by is_space (lstrip_by is_space s).

(** [s.rstrip(chars)] *)
Definition rstrip (chars s : pystr) : pystr :=
  rstrip_by (fun c => existsb (N.eqb c) chars) s.

(** [s.replace(a, b)] for one-character [a] and [b]. *)
Definition replace_char (a b : char) (s : pystr) : pystr :=
  map (fun c => if N.eqb c a then b else c) s.

(** [sep.join(parts)] *)
Fixpoint join (sep : pystr) (parts : list pystr) : pystr :=
  match parts with
  | [] => []
  | [p] => p
  | p :: rest => p ++ sep ++ join sep rest
  end.

(** Truth value of an optional string: [None] and [''] are false. *)
Definition truthy (e : option pystr) : bool :=
  match e with
  | Some (_ :: _) => true
  | _ => false
  end.

(* ================================================================== *)
(** ** Dictionaries

    Python dicts keep insertion order; assigning to an existing key keeps
    its position. *)

Definition dict (V : Type) := list (pystr * V).

Fixpoint dict_get {V} (d : dict V) (k : pystr) : option V :=
  match d with
  | [] => None
  | (k', v) :: d' => if str_eqb k' k then Some v else dict_get d' k
  end.

Fixpoint dict_set {V} (d : dict V) (k : pystr) (v : V) : dict V :=
  match d with
  | [] => [(k, v)]
  | (k', v') :: d' => if str_eqb k' k then (k', v) :: d' else (k', v') :: dict_set d' k v
  end.

Definition dict_get_default {V} (d : dict V) (k : pystr) (default : V) : V :=
  match dict_get d k with
  | Some v => v
  | None => default
  end.

(* ================================================================== *)
(** ** Regular expressions

    The patterns of [app.py] are sequences of characters, character
    classes, starred character classes (greedy or lazy) and groups.  The
    matcher is a backtracking matcher in continuation style: the
    continuation is the rest of the pattern, and a star tries its
    alternatives in the order [re] does (longest first when greedy,
    shortest first when lazy). *)

Inductive regex : Type :=
| Eps
| Cls (p : char -> bool)
| Seq (r1 r2 : regex)
| Star (greedy : bool) (p : char -> bool)
| Grp (r : regex).

Definition Chr (c : char) : regex := Cls (N.eqb c).

Fixpoint Lit (s : pystr) : regex :=
  match s with
  | [] => Eps
  | c :: s' => Seq (Chr c) (Lit s')
  end.

Fixpoint Seqs (rs : list regex) : regex :=
  match rs with
  | [] => Eps
  | r :: rs' => Seq r (Seqs rs')
  end.

Section Matcher.
Context {A : Type}.

Fixpoint star_greedy (p : char -> bool) (k : pystr -> option A) (s : pystr) : option A :=
  match s with
  | c :: s' =>
      if p c then
        match star_greedy p k s' with
        | Some a => Some a
        | None => k s
        end
      else k s
  | [] => k s
  end.

Fixpoint star_lazy (p : char -> bool) (k : pystr -> option A) (s : pystr) : option A :=
  match k s with
  | Some a => Some a
  | None =>
      match s with
      | c :: s' => if p c then star_lazy p k s' else None
      | [] => None
      end
  end.

(** [caps] are the groups closed so far, in order of closing. *)
Fixpoint rmatch (r : regex) (caps : list pystr) (s : pystr)
  (k : list pystr -> pystr -> option A) : option A :=
  match r with
  | Eps => k caps s
  | Cls p =>
      match s with
      | c :: s' => if p c then k caps s' else None
      | [] => None
      end
  | Seq r1 r2 => rmatch r1 caps s (fun caps' s' => rmatch r2 caps' s' k)
  | Star true p => star_greedy p (k caps) s
  | Star false p => star_lazy p (k caps) s
  | Grp r' =>
      rmatch r' caps s
        (fun caps' s' => k (caps' ++ [firstn (length s - length s') s]) s')
  end.

End Matcher.

(** A match at the head of [s]: the groups (group 0, the whole match,
    first) and the text after the match. *)
Definition match_at (r : regex) (s : pystr) : option (list pystr * pystr) :=
  rmatch r [] s (fun caps rest => Some (firstn (length s - length rest) s :: caps, rest)).

(** [re.search]: the leftmost position with a match. *)
Fixpoint search (r : regex) (s : pystr) : option (list pystr) :=
  match match_at r s with
  | Some (groups, _) => Some groups
  | None =>
      match s with
      | [] => None
      | _ :: s' => search r s'
      end
  end.

Definition group (n : nat) (groups : list pystr) : pystr := nth n groups [].

(** [re.sub]: non-overlapping matches, left to right.  [skip] counts the
    characters of the current match still to be dropped.  The patterns of
    this program match at least two characters; a match of no character is
    treated as no match. *)
Fixpoint sub_from (r : regex) (repl : list pystr -> pystr) (skip : nat) (s : pystr) : pystr :=
  match s with
  | [] => []
  | c :: s' =>
      match skip with
      | S n => sub_from r repl n s'
      | O =>
          match match_at r s with
          | Some (groups, rest) =>
              match length s - length rest with
              | S n => repl groups ++ sub_from r repl n s'
              | O => c :: sub_from r repl 0 s'
              end
          | None => c :: sub_from r repl 0 s'
          end
      end
  end.

Definition sub (r : regex) (repl : list pystr -> pystr) (s : pystr) : pystr :=
  sub_from r repl 0 s.

Definition any_char (_ : char) : bool := true.
Definition not_newline (c : char) : bool := negb (N.eqb c newline).
Definition closer (c : char) : bool := N.eqb c 125 || N.eqb c 93.

(** [favorites\s*=\s*({[\s\S]*?});] *)
Definition re_favorites : regex :=
  Seqs [Lit (lit "favorites"); Star true is_space; Chr 61; Star true is_space;
        Grp (Seqs [Chr 123; Star false any_char; Chr 125]); Chr 59].

(** [//.*?\n] *)
Definition re_line_comment : regex :=
  Seqs [Chr 47; Chr 47; Star false not_newline; Chr newline].

(** [,(\s*[}\]])] *)
Definition re_trailing_comma : regex :=
  Seqs [Chr 44; Grp (Seqs [Star true is_space; Cls closer])].

(* ================================================================== *)
(** ** JSON values and [json.loads]

    Integers are exact; a number with a fraction or an exponent, and the
    constants [NaN], [Infinity] and [-Infinity], are floats, kept as their
    lexeme. *)

Unset Elimination Schemes.
Inductive json : Type :=
| JNull
| JBool (b : bool)
| JInt (z : Z)
| JFloat (lexeme : pystr)
| JStr (s : pystr)
| JArr (l : list json)
| JObj (d : dict json).
Set Elimination Schemes.

(** Outcome of a scanner: a value and the text after it, a
    [JSONDecodeError], or nesting beyond the recursion budget. *)
Inductive scan (A : Type) : Type :=
| Scanned (v : A) (rest : pystr)
| DecodeError
| Exhausted.
Arguments DecodeError {A}.
Arguments Exhausted {A}.

Definition is_json_ws (c : char) : bool :=
  N.eqb c 32 || N.eqb c 9 || N.eqb c 10 || N.eqb c 13.

Fixpoint skip_ws (s : pystr) : pystr :=
  match s with
  | c :: s' => if is_json_ws c then skip_ws s' else s
  | [] => []
  end.

Definition is_digit (c : char) : bool := ((48 <=? c) && (c <=? 57))%N.

Definition hex_digit (c : char) : option N :=
  if is_digit c then Some (c - 48)%N
  else if ((97 <=? c) && (c <=? 102))%N then Some (c - 87)%N
  else if ((65 <=? c) && (c <=? 70))%N then Some (c - 55)%N
  else None.

Definition hex4 (a b c d : char) : option N :=
  match hex_digit a, hex_digit b, hex_digit c, hex_digit d with
  | Some x, Some y, Some z, Some w => Some (((x * 16 + y) * 16 + z) * 16 + w)%N
  | _, _, _, _ => None
  end.

Definition is_high_surrogate (c : N) : bool := ((55296 <=? c) && (c <=? 56319))%N.
Definition is_low_surrogate (c : N) : bool := ((56320 <=? c) && (c <=? 57343))%N.
Definition join_surrogates (hi lo : N) : N :=
  (65536 + (hi - 55296) * 1024 + (lo - 56320))%N.

Definition simple_escape (c : char) : option char :=
  if N.eqb c dquote then Some dquote
  else if N.eqb c backslash then Some backslash
  else if N.eqb c 47 then Some 47%N
  else if N.eqb c 98 then Some 8%N
  else if N.eqb c 102 then Some 12%N
  else if N.eqb c 110 then Some 10%N
  else if N.eqb c 114 then Some 13%N
  else if N.eqb c 116 then Some 9%N
  else None.

Definition scan_cons (c : char) (r : scan pystr) : scan pystr :=
  match r with
  | Scanned t rest => Scanned (c :: t) rest
  | DecodeError => DecodeError
  | Exhausted => Exhausted
  end.

(** [scanstring] in strict mode, from the character after the opening
    quote. *)
Fixpoint scanstring (s : pystr) : scan pystr :=
  match s with
  | [] => DecodeError
  | c :: s' =>
      if N.eqb c dquote then Scanned [] s'
      else if N.eqb c backslash then
        match s' with
        | [] => DecodeError
        | e :: s'' =>
            if N.eqb e 117 then
              match s'' with
              | h1 :: h2 :: h3 :: h4 :: s3 =>
                  match hex4 h1 h2 h3 h4 with
                  | None => DecodeError
                  | Some cp =>
                      match s3 with
                      | b :: u :: g1 :: g2 :: g3 :: g4 :: s4 =>
                          if is_high_surrogate cp && N.eqb b backslash && N.eqb u 117 then
                            match hex4 g1 g2 g3 g4 with
                            | None => DecodeError
                            | Some cp2 =>
                                if is_low_surrogate cp2
                                then scan_cons (join_surrogates cp cp2) (scanstring s4)
                                else scan_cons cp (scanstring s3)
                            end
                          else scan_cons cp (scanstring s3)
                      | _ => scan_cons cp (scanstring s3)
                      end
                  end
              | _ => DecodeError
              end
            else
              match simple_escape e with
              | Some c' => scan_cons c' (scanstring s'')
              | None => DecodeError
              end
        end
      else if (c <=? 31)%N then DecodeError
      else scan_cons c (scanstring s')
  end.

Fixpoint span_digits (s : pystr) : pystr * pystr :=
  match s with
  | c :: s' =>
      if is_digit c then let (ds, r) := span_digits s' in (c :: ds, r) else ([], s)
  | [] => ([], [])
  end.

Definition digits_value (ds : pystr) : Z :=
  fold_left (fun a d => (10 * a + (Z.of_N d - 48))%Z) ds 0%Z.

(** A number: an optional minus sign; [0], or a digit from 1 to 9 followed
    by digits; optionally a dot and at least one digit; optionally [e] or
    [E], an optional sign and at least one digit. *)
Definition match_number (s : pystr) : scan json :=
  let (neg, s1) :=
    match s with
    | c :: s' => if N.eqb c 45 then (true, s') else (false, s)
    | [] => (false, s)
    end in
  match s1 with
  | [] => DecodeError
  | c :: s2 =>
      let int_part :=
        if is_digit c && negb (N.eqb c 48)
        then let (ds, r) := span_digits s2 in Some (c :: ds, r)
        else if N.eqb c 48 then Some ([c], s2)
        else None in
      match int_part with
      | None => DecodeError
      | Some (ip, s3) =>
          let (frac, s4) :=
            match s3 with
            | dot :: d :: s' =>
                if N.eqb dot 46 && is_digit d
                then let (ds, r) := span_digits s' in (dot :: d :: ds, r)
                else ([], s3)
            | _ => ([], s3)
            end in
          let (expo, s5) :=
            match s4 with
            | e :: s' =>
                if N.eqb e 101 || N.eqb e 69 then
                  let (sgn, s'') :=
                    match s' with
                    | g :: t => if N.eqb g 45 || N.eqb g 43 then ([g], t) else ([], s')
                    | [] => ([], s')
                    end in
                  match span_digits s'' with
                  | ([], _) => ([], s4)
                  | (ds, r) => (e :: sgn ++ ds, r)
                  end
                else ([], s4)
            | [] => ([], s4)
            end in
          match frac, expo with
          | [], [] =>
              Scanned (JInt (if neg then - digits_value ip else digits_value ip)%Z) s5
          | _, _ =>
              Scanned (JFloat ((if neg then [45%N] else []) ++ ip ++ frac ++ expo)) s5
          end
      end
  end.

Section Containers.
Variable scan_once : pystr -> scan json.

(** The loop of [_parse_array], entered at the first element. *)
Fixpoint parse_array_loop (n : nat) (acc : list json) (s : pystr) : scan json :=
  match n with
  | O => Exhausted
  | S n' =>
      match scan_once s with
      | Scanned v s1 =>
          match skip_ws s1 with
          | c :: s2 =>
              if N.eqb c 93 then Scanned (JArr (acc ++ [v])) s2
              else if N.eqb c 44 then parse_array_loop n' (acc ++ [v]) (skip_ws s2)
              else DecodeError
          | [] => DecodeError
          end
      | DecodeError => DecodeError
      | Exhausted => Exhausted
      end
  end.

Definition parse_array (n : nat) (s : pystr) : scan json :=
  match skip_ws s with
  | c :: s' =>
      if N.eqb c 93 then Scanned (JArr []) s'
      else parse_array_loop n [] (c :: s')
  | [] => DecodeError
  end.

(** The loop of [_parse_object], entered at the opening quote of a key. *)
Fixpoint parse_object_loop (n : nat) (d : dict json) (s : pystr) : scan json :=
  match n with
  | O => Exhausted
  | S n' =>
      match s with
      | q :: s0 =>
          if N.eqb q dquote then
            match scanstring s0 with
            | Scanned key s1 =>
                match skip_ws s1 with
                | c1 :: s2 =>
                    if N.eqb c1 58 then
                      match scan_once (skip_ws s2) with
                      | Scanned v s3 =>
                          match skip_ws s3 with
                          | c2 :: s4 =>
                              if N.eqb c2 125 then Scanned (JObj (dict_set d key v)) s4
                              else if N.eqb c2 44
                              then parse_object_loop n' (dict_set d key v) (skip_ws s4)
                              else DecodeError
                          | [] => DecodeError
                          end
                      | DecodeError => DecodeError
                      | Exhausted => Exhausted
                      end
                    else DecodeError
                | [] => DecodeError
                end
            | DecodeError => DecodeError
            | Exhausted => Exhausted
            end
          else DecodeError
      | [] => DecodeError
      end
  end.

Definition parse_object (n : nat) (s : pystr) : scan json :=
  match skip_ws s with
  | c :: s' =>
      if N.eqb c 125 then Scanned (JObj []) s'
      else parse_object_loop n [] (c :: s')
  | [] => DecodeError
  end.

End Containers.

(** [scan_once]: one JSON value at the head of [s].  [fuel] bounds the
    nesting depth and the number of elements of a container. *)
Fixpoint scan_once (fuel : nat) (s : pystr) : scan json :=
  match fuel with
  | O => Exhausted
  | S f =>
      match s with
      | [] => DecodeError
      | c :: s' =>
          if N.eqb c dquote then
            match scanstring s' with
            | Scanned t rest => Scanned (JStr t) rest
            | DecodeError => DecodeError
            | Exhausted => Exhausted
            end
          else if N.eqb c 123 then parse_object (scan_once f) f s'
          else if N.eqb c 91 then parse_array (scan_once f) f s'
          else if startswith (lit "null") s then Scanned JNull (skipn 4 s)
          else if startswith (lit "true") s then Scanned (JBool true) (skipn 4 s)
          else if startswith (lit "false") s then Scanned (JBool false) (skipn 5 s)
          else if startswith (lit "NaN") s then Scanned (JFloat (lit "NaN")) (skipn 3 s)
          else if startswith (lit "Infinity") s
          then Scanned (JFloat (lit "Infinity")) (skipn 8 s)
          else if startswith (lit "-Infinity") s
          then Scanned (JFloat (lit "-Infinity")) (skipn 9 s)
          else match_number s
      end
  end.

Inductive decoded : Type :=
| Decoded (v : json)
| JSONDecodeError
| RecursionError.

(** [json.loads(s)]: optional whitespace, one value, optional whitespace,
    end of text.  The fuel given is enough for every text (lemma
    [scan_once_fuel] below), so [RecursionError] does not arise here; the
    interpreter's own recursion limit is not modelled. *)
Definition json_loads (s : pystr) : decoded :=
  if startswith [65279%N] s then JSONDecodeError
  else
    match scan_once (S (length s)) (skip_ws s) with
    | Scanned v rest =>
        match skip_ws rest with
        | [] => Decoded v
        | _ :: _ => JSONDecodeError
        end
    | DecodeError => JSONDecodeError
    | Exhausted => RecursionError
    end.

(* ================================================================== *)
(** ** Python operations on decoded values

    A value decoded from the store can have any JSON type; an operation
    that Python refuses for a type raises. *)

Inductive res (A : Type) : Type :=
| Val (a : A)
| Raised (msg : pystr).
Arguments Raised {A}.

Definition bind {A B} (r : res A) (k : A -> res B) : res B :=
  match r with
  | Val a => k a
  | Raised msg => Raised msg
  end.

Notation "x <- e ;; k" := (bind e (fun x => k))
  (at level 61, e at next level, right associativity).

Definition type_name (v : json) : pystr :=
  match v with
  | JNull => lit "NoneType"
  | JBool _ => lit "bool"
  | JInt _ => lit "int"
  | JFloat _ => lit "float"
  | JStr _ => lit "str"
  | JArr _ => lit "list"
  | JObj _ => lit "dict"
  end.

Definition no_attribute (v : json) (name : string) : pystr :=
  lit "'" ++ type_name v ++ lit "' object has no attribute '" ++ lit name ++ lit "'".

(** [x == v] for a string [x]: only an equal string is equal. *)
Definition is_str (x : pystr) (v : json) : bool :=
  match v with
  | JStr s => str_eqb x s
  | _ => false
  end.

(** [v.get(k, default)] *)
Definition py_get (v : json) (k : pystr) (default : json) : res json :=
  match v with
  | JObj d => Val (dict_get_default d k default)
  | _ => Raised (no_attribute v "get")
  end.

(** [v[k] = x] *)
Definition py_setitem (v : json) (k : pystr) (x : json) : res json :=
  match v with
  | JObj d => Val (JObj (dict_set d k x))
  | _ => Raised (lit "'" ++ type_name v ++ lit "' object does not support item assignment")
  end.

(** [x in v] for a string [x] *)
Definition py_contains (x : pystr) (v : json) : res bool :=
  match v with
  | JArr l => Val (existsb (is_str x) l)
  | JStr s => Val (contains x s)
  | JObj d => Val (existsb (fun kv => str_eqb x (fst kv)) d)
  | _ => Raised (lit "argument of type '" ++ type_name v ++ lit "' is not iterable")
  end.

(** [v.append(x)], giving the list after the call *)
Definition py_append (v : json) (x : pystr) : res (list json) :=
  match v with
  | JArr l => Val (l ++ [JStr x])
  | _ => Raised (no_attribute v "append")
  end.

Fixpoint remove_first (x : pystr) (l : list json) : option (list json) :=
  match l with
  | [] => None
  | v :: l' =>
      if is_str x v then Some l'
      else match remove_first x l' with
           | Some r => Some (v :: r)
           | None => None
           end
  end.

(** [v.remove(x)], giving the list after the call *)
Definition py_remove (v : json) (x : pystr) : res (list json) :=
  match v with
  | JArr l =>
      match remove_first x l with
      | Some l' => Val l'
      | None => Raised (lit "list.remove(x): x not in list")
      end
  | _ => Raised (no_attribute v "remove")
  end.

(** [len(v)] *)
Definition py_len (v : json) : res nat :=
  match v with
  | JArr l => Val (length l)
  | JStr s => Val (length s)
  | JObj d => Val (length d)
  | _ => Raised (lit "object of type '" ++ type_name v ++ lit "' has no len()")
  end.

(** The elements of [for x in v]. *)
Definition py_iter (v : json) : res (list json) :=
  match v with
  | JArr l => Val l
  | JStr s => Val (map (fun c => JStr [c]) s)
  | JObj d => Val (map (fun kv => JStr (fst kv)) d)
  | _ => Raised (lit "'" ++ type_name v ++ lit "' object is not iterable")
  end.

Fixpoint mapM {A B} (f : A -> res B) (l : list A) : res (list B) :=
  match l with
  | [] => Val []
  | a :: l' => b <- f a ;; bs <- mapM f l' ;; Val (b :: bs)
  end.

(* ================================================================== *)
(** ** The remote repository *)

(** A song record, at the types of the catalog's data model; [None] is an
    absent field. *)
Record song : Type := {
  title : option pystr;
  artist : option pystr;
  url : option pystr;
  difficulty : option pystr;
  thumbnail : option pystr;
  categories : option (list pystr);
  sheets : option (list json)
}.

(** What fetching [sheets/piano_sheets.json] gives. *)
Inductive sheets_fetch : Type :=
| SheetsRaise (msg : pystr)
| Sheets (songs : list song).

(** What fetching [users/data.js] gives: [repo.get_contents] raises, or
    reading the text of the file raises, or the text. *)
Inductive file_fetch : Type :=
| GetContentsRaises (msg : pystr)
| DecodeRaises (msg : pystr)
| Content (text : pystr).

(** The repository as one request sees it.  [repo] is false when no token
    is configured; [repo_name] is [GITHUB_REPO]; [update_error] is the
    exception [repo.update_file] raises, if any. *)
Record github : Type := {
  repo : bool;
  repo_name : pystr;
  sheets_file : sheets_fetch;
  favorites_file : file_fetch;
  update_error : option pystr
}.

Definition set_favorites_file (g : github) (text : pystr) : github :=
  {| repo := repo g;
     repo_name := repo_name g;
     sheets_file := sheets_file g;
     favorites_file := Content text;
     update_error := update_error g |}.

(** [datetime.utcnow()] *)
Record datetime : Type := {
  year : nat; month : nat; day : nat; hour : nat; minute : nat; second : nat
}.

Fixpoint uint_codes (u : Decimal.uint) : pystr :=
  match u with
  | Decimal.Nil => []
  | Decimal.D0 u' => 48%N :: uint_codes u'
  | Decimal.D1 u' => 49%N :: uint_codes u'
  | Decimal.D2 u' => 50%N :: uint_codes u'
  | Decimal.D3 u' => 51%N :: uint_codes u'
  | Decimal.D4 u' => 52%N :: uint_codes u'
  | Decimal.D5 u' => 53%N :: uint_codes u'
  | Decimal.D6 u' => 54%N :: uint_codes u'
  | Decimal.D7 u' => 55%N :: uint_codes u'
  | Decimal.D8 u' => 56%N :: uint_codes u'
  | Decimal.D9 u' => 57%N :: uint_codes u'
  end.

Definition decimal (n : nat) : pystr := uint_codes (Nat.to_uint n).

Definition pad2 (n : nat) : pystr :=
  if n <? 10 then 48%N :: decimal n else decimal n.

(** [strftime('%Y-%m-%d %H:%M:%S')] *)
Definition strftime (t : datetime) : pystr :=
  decimal (year t) ++ lit "-" ++ pad2 (month t) ++ lit "-" ++ pad2 (day t) ++ lit " "
  ++ pad2 (hour t) ++ lit ":" ++ pad2 (minute t) ++ lit ":" ++ pad2 (second t).

(* ================================================================== *)
(** ** Data access *)

Definition get_songs_data (g : github) : option (list song) * option pystr :=
  if negb (repo g)
  then (None, Some (lit "GitHub not configured - check GITHUB_TOKEN environment variable"))
  else match sheets_file g with
       | SheetsRaise msg => (None, Some msg)
       | Sheets songs => (Some songs, None)
       end.

(** The tolerant parser of the favorites text. *)
Definition parse_favorites (content : pystr) : json * option pystr :=
  match search re_favorites content with
  | Some m =>
      let json_str := group 1 m in
      let json_str := sub re_line_comment (fun _ => []) json_str in
      let json_str := replace_char squote dquote json_str in
      let json_str := sub re_trailing_comma (fun m' => group 1 m') json_str in
      match json_loads json_str with
      | Decoded favorites => (favorites, None)
      | JSONDecodeError => (JObj [], None)
      | RecursionError => (JObj [], Some (lit "maximum recursion depth exceeded"))
      end
  | None => (JObj [], None)
  end.

Definition get_all_favorites (g : github) : json * option pystr :=
  if negb (repo g) then (JObj [], Some (lit "GitHub not configured"))
  else match favorites_file g with
       | GetContentsRaises msg => (JObj [], Some msg)
       | DecodeRaises msg => (JObj [], Some msg)
       | Content content => parse_favorites content
       end.

Definition get_user_favorites (g : github) (user_id : pystr) : res (json * option pystr) :=
  let (all_favs, error) := get_all_favorites g in
  if truthy error then Val (JArr [], error)
  else favs <- py_get all_favs user_id (JArr []) ;; Val (favs, None).

Section Serializer.
(** [str(v)], as the f-string applies it to an element of a favorites
    value.  Only its value on strings matters below. *)
Variable py_str : json -> pystr.

Definition quoted (v : json) : pystr := [dquote] ++ py_str v ++ [dquote].

(** One turn of the loop over [all_favs.items()]. *)
Definition js_entry (js_content : pystr) (item : pystr * json) : res pystr :=
  let (uid, favs) := item in
  songs <- py_iter favs ;;
  let songs_str := join (lit ", ") (map quoted songs) in
  Val (js_content ++ lit "  " ++ [dquote] ++ uid ++ [dquote] ++ lit ": [" ++ songs_str
       ++ lit "]," ++ [newline]).

Fixpoint js_entries (js_content : pystr) (items : dict json) : res pystr :=
  match items with
  | [] => Val js_content
  | item :: rest => js <- js_entry js_content item ;; js_entries js rest
  end.

Definition js_content (all_favs : dict json) : res pystr :=
  js <- js_entries (lit "export const favorites = {" ++ [newline]) all_favs ;;
  Val (rstrip [44%N; newline] js ++ [newline] ++ lit "};" ++ [newline]).

Definition new_content (now : datetime) (js : pystr) : pystr :=
  lit "// Auto-generated favorites list" ++ [newline]
  ++ lit "// Multi-user support - each user has their own favorites" ++ [newline]
  ++ lit "// Updated: " ++ strftime now ++ lit " UTC" ++ [newline]
  ++ [newline]
  ++ js.

Definition update_user_favorites (now : datetime) (g : github) (user_id : pystr)
  (favorites_list : list json) : (bool * option pystr) * github :=
  if negb (repo g) then ((false, Some (lit "GitHub not configured")), g)
  else match favorites_file g with
       | GetContentsRaises msg => ((false, Some msg), g)
       | _ =>
           let (all_favs, error) := get_all_favorites g in
           if truthy error && contains (lit "not configured") (match error with Some e => e | None => [] end)
           then ((false, error), g)
           else
             match (all_favs' <- py_setitem all_favs user_id (JArr favorites_list) ;;
                    match all_favs' with
                    | JObj d => js_content d
                    | _ => Raised (no_attribute all_favs' "items")
                    end) with
             | Raised msg => ((false, Some msg), g)
             | Val js =>
                 match update_error g with
                 | Some msg => ((false, Some msg), g)
                 | None => ((true, None), set_favorites_file g (new_content now js))
                 end
             end
       end.

(* ================================================================== *)
(** ** Request handlers *)

Record response : Type := { status : nat; body : json }.

Definition jsonify (fields : dict json) (code : nat) : response :=
  {| status := code; body := JObj fields |}.

Definition opt_str (e : option pystr) : json :=
  match e with
  | Some s => JStr s
  | None => JNull
  end.

Definition error_response (e : option pystr) (code : nat) : response :=
  jsonify [(lit "error", opt_str e)] code.

(** The registered handler for an exception no route catches. *)
Definition internal_error : response :=
  error_response (Some (lit "Internal server error")) 500.

(** A request to a favorites route: the query parameters, and for POST the
    decoded JSON body, an object with string fields ([None] when there is
    none). *)
Inductive request : Type :=
| GET (args : dict pystr)
| POST (args : dict pystr) (data : option (dict pystr)).

Definition request_song_id (req : request) : option pystr :=
  match req with
  | GET args => dict_get args (lit "song_id")
  | POST _ (Some data) =>
      match data with
      | [] => None
      | _ :: _ => dict_get data (lit "song_id")
      end
  | POST _ None => None
  end.

Definition get_favorites_route (g : github) (user_id : pystr) : response :=
  match get_user_favorites g user_id with
  | Raised _ => internal_error
  | Val (favorites, error) =>
      let favorites :=
        if truthy error
           && negb (contains (lit "not configured") (match error with Some e => e | None => [] end))
        then JArr [] else favorites in
      match py_len favorites with
      | Raised _ => internal_error
      | Val n =>
          jsonify [(lit "user_id", JStr user_id);
                   (lit "count", JInt (Z.of_nat n));
                   (lit "favorites", favorites)] 200
      end
  end.

Definition add_favorite (now : datetime) (g : github) (user_id : pystr) (req : request)
  : response * github :=
  match request_song_id req with
  | None | Some [] => (error_response (Some (lit "song_id is required")) 400, g)
  | Some song_id =>
      match get_user_favorites g user_id with
      | Raised _ => (internal_error, g)
      | Val (favorites, error) =>
          if truthy error then (error_response error 500, g)
          else
            match py_contains song_id favorites with
            | Raised _ => (internal_error, g)
            | Val true =>
                (jsonify [(lit "message", JStr (lit "Already in favorites"));
                          (lit "user_id", JStr user_id);
                          (lit "favorites", favorites)] 200, g)
            | Val false =>
                match py_append favorites song_id with
                | Raised _ => (internal_error, g)
                | Val favorites' =>
                    let '((success, error'), g') :=
                      update_user_favorites now g user_id favorites' in
                    if negb success then (error_response error' 500, g')
                    else
                      (jsonify [(lit "message", JStr (lit "Added to favorites"));
                                (lit "user_id", JStr user_id);
                                (lit "count", JInt (Z.of_nat (length favorites')));
                                (lit "favorites", JArr favorites')] 200, g')
                end
            end
      end
  end.

Definition remove_favorite (now : datetime) (g : github) (user_id : pystr) (req : request)
  : response * github :=
  match request_song_id req with
  | None | Some [] => (error_response (Some (lit "song_id is required")) 400, g)
  | Some song_id =>
      match get_user_favorites g user_id with
      | Raised _ => (internal_error, g)
      | Val (favorites, error) =>
          if truthy error then (error_response error 500, g)
          else
            match py_contains song_id favorites with
            | Raised _ => (internal_error, g)
            | Val true =>
                match py_remove favorites song_id with
                | Raised _ => (internal_error, g)
                | Val favorites' =>
                    let '((success, error'), g') :=
                      update_user_favorites now g user_id favorites' in
                    if negb success then (error_response error' 500, g')
                    else
                      (jsonify [(lit "message", JStr (lit "Removed from favorites"));
                                (lit "user_id", JStr user_id);
                                (lit "count", JInt (Z.of_nat (length favorites')));
                                (lit "favorites", JArr favorites')] 200, g')
                end
            | Val false =>
                (jsonify [(lit "message", JStr (lit "Not in favorites"));
                          (lit "user_id", JStr user_id);
                          (lit "favorites", favorites)] 200, g)
            end
      end
  end.

End Serializer.

(** [jsonify(song)] *)
Definition opt_field {V} (name : string) (f : V -> json) (v : option V) : dict json :=
  match v with
  | Some x => [(lit name, f x)]
  | None => []
  end.

Definition json_of_song (s : song) : json :=
  JObj (opt_field "title" JStr (title s)
        ++ opt_field "artist" JStr (artist s)
        ++ opt_field "url" JStr (url s)
        ++ opt_field "difficulty" JStr (difficulty s)
        ++ opt_field "thumbnail" JStr (thumbnail s)
        ++ opt_field "categories" (fun l => JArr (map JStr l)) (categories s)
        ++ opt_field "sheets" JArr (sheets s)).

(** [d.get(k, default)] on a record field. *)
Definition field_or {V} (v : option V) (default : V) : V :=
  match v with
  | Some x => x
  | None => default
  end.

(** The test of the loop of [get_song]. *)
Definition song_matches (song_id : pystr) (s : song) : bool :=
  let url := field_or (url s) [] in
  contains song_id url || endswith url (lit "/" ++ song_id).

(** The loop of [get_song] and the return after it. *)
Fixpoint get_song_loop (song_id : pystr) (songs : list song) : response :=
  match songs with
  | [] => error_response (Some (lit "Song not found")) 404
  | s :: rest =>
      if song_matches song_id s then {| status := 200; body := json_of_song s |}
      else get_song_loop song_id rest
  end.

Definition get_song (g : github) (song_id : pystr) : response :=
  let (songs, error) := get_songs_data g in
  if truthy error then error_response error 500
  else match songs with
       | Some songs => get_song_loop song_id songs
       | None => internal_error
       end.

Section Search.
(** [str.lower] *)
Variable lower : pystr -> pystr.

Definition search_songs (g : github) (args : dict pystr) : response :=
  let query := strip (lower (dict_get_default args (lit "q") [])) in
  match query with
  | [] =>
      error_response
        (Some (lit "Query parameter " ++ [dquote] ++ lit "q" ++ [dquote] ++ lit " is required"))
        400
  | _ :: _ =>
      let (songs, error) := get_songs_data g in
      if truthy error then error_response error 500
      else match songs with
           | Some songs =>
               let results :=
                 filter (fun s =>
                           contains query (lower (field_or (title s) []))
                           || contains query (lower (field_or (artist s) []))) songs in
               jsonify [(lit "query", JStr query);
                        (lit "count", JInt (Z.of_nat (length results)));
                        (lit "results", JArr (map json_of_song results))] 200
           | None => internal_error
           end
  end.

End Search.

(** [set.add] on a set kept as a list without repetition. *)
Definition set_add (s : list pystr) (x : pystr) : list pystr :=
  if existsb (str_eqb x) s then s else s ++ [x].

(** The accumulators of the loop of [get_stats]. *)
Record stats_acc : Type := {
  artists : list pystr;
  difficulties : dict nat;
  all_categories : list pystr;
  total_sheets : nat
}.

Definition stats_step (acc : stats_acc) (s : song) : stats_acc :=
  let a := field_or (artist s) (lit "Unknown") in
  let d := field_or (difficulty s) (lit "Unknown") in
  {| artists :=
       if negb (str_eqb a []) && negb (str_eqb a (lit "Unknown Artist"))
       then set_add (artists acc) a else artists acc;
     difficulties := dict_set (difficulties acc) d (dict_get_default (difficulties acc) d 0 + 1);
     all_categories := fold_left set_add (field_or (categories s) []) (all_categories acc);
     total_sheets := total_sheets acc + length (field_or (sheets s) []) |}.

Definition stats_loop (songs : list song) : stats_acc :=
  fold_left stats_step songs
    {| artists := []; difficulties := []; all_categories := []; total_sheets := 0 |}.

(** [d.values()] *)
Definition py_values (v : json) : res (list json) :=
  match v with
  | JObj d => Val (map snd d)
  | _ => Raised (no_attribute v "values")
  end.

Definition get_stats (g : github) : response :=
  let (songs, error) := get_songs_data g in
  if truthy error then error_response error 500
  else
    let (all_favs, _) := get_all_favorites g in
    match songs with
    | None => internal_error
    | Some songs =>
        let total_songs := length songs in
        let acc := stats_loop songs in
        match (users <- py_len all_favs ;;
               values <- py_values all_favs ;;
               lens <- mapM py_len values ;;
               Val (users, fold_left Nat.add lens 0)) with
        | Raised _ => internal_error
        | Val (total_users, total_favorites) =>
            jsonify [(lit "total_songs", JInt (Z.of_nat total_songs));
                     (lit "total_artists", JInt (Z.of_nat (length (artists acc))));
                     (lit "total_categories", JInt (Z.of_nat (length (all_categories acc))));
                     (lit "total_sheets", JInt (Z.of_nat (total_sheets acc)));
                     (lit "total_users", JInt (Z.of_nat total_users));
                     (lit "total_favorites", JInt (Z.of_nat total_favorites));
                     (lit "difficulties",
                      JObj (map (fun kv => (fst kv, JInt (Z.of_nat (snd kv)))) (difficulties acc)));
                     (lit "database_file", JStr (lit "sheets/piano_sheets.json"));
                     (lit "repository", JStr (repo_name g))] 200
        end
    end.

(* ================================================================== *)
(** ** Vocabulary of the statements *)

(** A repository with a token, an empty catalog and [text] as the
    favorites file. *)
Definition store_with (text : pystr) : github :=
  {| repo := true;
     repo_name := lit "orb1ispare/piano-sheets-db";
     sheets_file := Sheets [];
     favorites_file := Content text;
     update_error := None |}.

(** A repository without a token. *)
Definition store_not_configured : github :=
  {| repo := false;
     repo_name := lit "orb1ispare/piano-sheets-db";
     sheets_file := Sheets [];
     favorites_file := Content [];
     update_error := None |}.

Definition example_text : pystr :=
  lit "favorites = {'u1': ['a','b'], /* c */ 'u2': ['c'],};".

Definition example_text_no_comment : pystr :=
  lit "favorites = {'u1': ['a','b'], 'u2': ['c'],};".

Definition example_text_line_comment : pystr :=
  lit "favorites = {'u1': ['a','b'], // c" ++ [newline] ++ lit " 'u2': ['c'],};".

Definition example_mapping : json :=
  JObj [(lit "u1", JArr [JStr (lit "a"); JStr (lit "b")]);
        (lit "u2", JArr [JStr (lit "c")])].

(** Reading the favorites file fails: no repository is configured, or
    fetching the file raises, or reading its text raises. *)
Definition read_fails (g : github) : Prop :=
  repo g = false
  \/ (exists msg, favorites_file g = GetContentsRaises msg)
  \/ (exists msg, favorites_file g = DecodeRaises msg).

(** The fields of a JSON response. *)
Definition fields (r : response) : dict json :=
  match body r with
  | JObj d => d
  | _ => []
  end.

Definition has_field (r : response) (name : string) : bool :=
  match dict_get (fields r) (lit name) with
  | Some _ => true
  | None => false
  end.

(** A query parameter that is missing, empty or made of whitespace only. *)
Definition blank (q : option pystr) : Prop :=
  match q with
  | None => True
  | Some s => forallb is_space s = true
  end.

(** The url of a song, [''] when the field is absent. *)
Definition url_of (s : song) : pystr := field_or (url s) [].

(** [song_id] is a substring of [u], or [u] ends with ['/'] and [song_id]. *)
Definition id_matches (song_id u : pystr) : Prop :=
  (exists a b, u = a ++ song_id ++ b) \/ (exists a, u = a ++ lit "/" ++ song_id).

(** The histogram bucket of a song. *)
Definition bucket_of (s : song) : pystr := field_or (difficulty s) (lit "Unknown").

Definition hist_total (h : dict nat) : nat := list_sum (map snd h).

Definition songs_in_bucket (d : pystr) (songs : list song) : nat :=
  length (filter (fun s => str_eqb (bucket_of s) d) songs).

(** The histogram as [jsonify] sends it. *)
Definition json_hist (h : dict nat) : json :=
  JObj (map (fun kv => (fst kv, JInt (Z.of_nat (snd kv)))) h).

(** An instance of [str] for running the handlers: the identity on
    strings. *)
Definition str_of_string (v : json) : pystr :=
  match v with
  | JStr s => s
  | _ => []
  end.

Definition song_with (t u : string) (d : option pystr) : song :=
  {| title := Some (lit t); artist := None; url := Some (lit u); difficulty := d;
     thumbnail := None; categories := None; sheets := None |}.

Definition example_catalog : list song :=
  [song_with "Ode" "https://sheets.example/ode-to-joy" (Some (lit "Easy"));
   song_with "Nocturne" "https://sheets.example/nocturne" None;
   song_with "Joy" "https://sheets.example/joy" (Some (lit "Easy"))].

Definition example_catalog_store : github :=
  {| repo := true;
     repo_name := lit "orb1ispare/piano-sheets-db";
     sheets_file := Sheets example_catalog;
     favorites_file := Content example_text_no_comment;
     update_error := None |}.

Definition noon : datetime :=
  {| year := 2024; month := 5; day := 17; hour := 12; minute := 0; second := 0 |}.

(** A favorites mapping at its intended type, and the value [json.loads]
    gives for it. *)
Definition favmap := dict (list pystr).

Definition json_of_favs (m : favmap) : dict json :=
  map (fun kv => (fst kv, JArr (map JStr (snd kv)))) m.

(** The list [get_user_favorites] reads for a user of [m]. *)
Definition favs_of (m : favmap) (user_id : pystr) : list pystr :=
  dict_get_default m user_id [].

(** A comma, then whitespace if any, then a closing brace or bracket. *)
Definition comma_closer_at (s : pystr) : bool :=
  match s with
  | c :: t =>
      N.eqb c 44 && match lstrip_by is_space t with
                    | d :: _ => closer d
                    | [] => false
                    end
  | [] => false
  end.

(** A character a JSON string holds as it is: not a control character,
    not a double quote, not a backslash. *)
Definition plain_char (c : char) : bool :=
  (32 <=? c)%N && negb (N.eqb c dquote) && negb (N.eqb c backslash).

(** What the parser rewrites or cuts at: a single quote, two slashes, a
    closing brace with a semicolon, a comma before a closer. *)
Definition unsafe_at (t : pystr) : bool :=
  startswith [squote] t || startswith (lit "//") t || startswith (lit "};") t
  || comma_closer_at t.

(** An id the stored text carries unchanged. *)
Definition safe_id (s : pystr) : bool :=
  forallb plain_char s && negb (anywhere unsafe_at s).

Definition safe_favs (m : favmap) : bool :=
  forallb (fun kv => safe_id (fst kv) && forallb safe_id (snd kv)) m.

(** An id without single quote, double quote, backslash, two slashes or a
    closing brace with a semicolon. *)
Definition quote_free (s : pystr) : bool :=
  forallb (fun c => negb (N.eqb c squote) && negb (N.eqb c dquote)
                    && negb (N.eqb c backslash)) s
  && negb (contains (lit "//") s) && negb (contains (lit "};") s).

Definition quote_free_favs (m : favmap) : bool :=
  forallb (fun kv => quote_free (fst kv) && forallb quote_free (snd kv)) m.

(** The stored text of a mapping, read from left to right: what follows
    the closing quote of a song, the list of an entry, what follows the
    list of an entry, and the object. *)
Fixpoint after_song (l : list pystr) (rest : pystr) : pystr :=
  match l with
  | [] => lit "]" ++ rest
  | s :: l' => lit ", " ++ dquote :: s ++ dquote :: after_song l' rest
  end.

Definition songs_text (l : list pystr) (rest : pystr) : pystr :=
  match l with
  | [] => lit "[]" ++ rest
  | s :: l' => lit "[" ++ dquote :: s ++ dquote :: after_song l' rest
  end.

Definition entry_text (u : pystr) (l : list pystr) (rest : pystr) : pystr :=
  dquote :: u ++ dquote :: lit ": " ++ songs_text l rest.

Fixpoint after_entry (m : favmap) (rest : pystr) : pystr :=
  match m with
  | [] => newline :: lit "}" ++ rest
  | (u, l) :: m' => lit "," ++ newline :: lit "  " ++ entry_text u l (after_entry m' rest)
  end.

Definition body_text (m : favmap) : pystr :=
  match m with
  | [] => lit "{" ++ newline :: lit "}"
  | (u, l) :: m' => lit "{" ++ newline :: lit "  " ++ entry_text u l (after_entry m' [])
  end.

(** One line of the loop, for an entry at its intended type. *)
Definition line_text (u : pystr) (l : list pystr) : pystr :=
  lit "  " ++ [dquote] ++ u ++ [dquote] ++ lit ": ["
  ++ join (lit ", ") (map (fun x => [dquote] ++ x ++ [dquote]) l) ++ lit "]," ++ [newline].

(** A character other than the first letter of [favorites]. *)
Definition not_f (c : char) : bool := negb (N.eqb c 102).

(** The module text the serializer writes for [m]. *)
Definition module_text (now : datetime) (m : favmap) : pystr :=
  new_content now (lit "export const favorites = " ++ body_text m ++ lit ";" ++ [newline]).

(** Mappings for the examples: a plain one, one with a song id holding a
    comma before a bracket, one with a song id holding a tab. *)
Definition example_favs : favmap :=
  [(lit "u1", [lit "a"; lit "b"]); (lit "u2", [lit "c"])].

Definition comma_bracket_favs : favmap := [(lit "u1", [lit "a,]b"])].

Definition tab_favs : favmap := [(lit "u1", [[97%N; 9%N; 98%N]])].

(** What a scanner may answer on [s]: it consumes at least one character
    and does not run out of fuel. *)
Definition consumes {A} (r : scan A) (s : pystr) : Prop :=
  match r with
  | Scanned _ rest => length rest < length s
  | DecodeError => True
  | Exhausted => False
  end.

(* ================================================================== *)
(** ** The other routes *)

(** [s.split(sep)] for a one-character [sep]: the segments between the
    separators, at least one. *)
Fixpoint split_char (sep : char) (s : pystr) : list pystr :=
  match s with
  | [] => [[]]
  | c :: s' =>
      if N.eqb c sep then [] :: split_char sep s'
      else match split_char sep s' with
           | seg :: segs => (c :: seg) :: segs
           | [] => [[c]]
           end
  end.

(** [url.split('/')[-1]] *)
Definition last_segment (u : pystr) : pystr := last (split_char 47 u) [].

(** One entry of the simplified list. *)
Definition simplified (s : song) : json :=
  JObj [(lit "title", opt_str (title s));
        (lit "artist", JStr (field_or (artist s) (lit "Unknown")));
        (lit "url", opt_str (url s));
        (lit "difficulty", JStr (field_or (difficulty s) (lit "Normal")));
        (lit "thumbnail", opt_str (thumbnail s));
        (lit "id", JStr (last_segment (field_or (url s) [])));
        (lit "categories", JArr (map JStr (field_or (categories s) [])))].

Definition get_songs (g : github) : response :=
  let (songs, error) := get_songs_data g in
  if truthy error then error_response error 500
  else match songs with
       | Some songs =>
           let simplified_list := map simplified songs in
           jsonify [(lit "count", JInt (Z.of_nat (length simplified_list)));
                    (lit "songs", JArr simplified_list)] 200
       | None => internal_error
       end.

Definition get_songs_full (g : github) : response :=
  let (songs, error) := get_songs_data g in
  if truthy error then error_response error 500
  else match songs with
       | Some songs =>
           jsonify [(lit "count", JInt (Z.of_nat (length songs)));
                    (lit "songs", JArr (map json_of_song songs))] 200
       | None => internal_error
       end.

(** [a <= b] on strings: lexicographic, by code point. *)
Fixpoint str_leb (a b : pystr) : bool :=
  match a, b with
  | [], _ => true
  | _ :: _, [] => false
  | x :: a', y :: b' =>
      if N.ltb x y then true
      else if N.eqb x y then str_leb a' b'
      else false
  end.

Fixpoint insert_sorted (x : pystr) (l : list pystr) : list pystr :=
  match l with
  | [] => [x]
  | y :: l' => if str_leb x y then x :: l else y :: insert_sorted x l'
  end.

(** [sorted(l)]: the stable ascending rearrangement of [l]. *)
Definition sorted (l : list pystr) : list pystr := fold_right insert_sorted [] l.

(** The set built by the two nested loops of [get_categories]. *)
Definition collect_categories (songs : list song) : list pystr :=
  fold_left (fun acc s => fold_left set_add (field_or (categories s) []) acc) songs [].

Definition get_categories (g : github) : response :=
  let (songs, error) := get_songs_data g in
  if truthy error then error_response error 500
  else match songs with
       | Some songs =>
           let cats := collect_categories songs in
           jsonify [(lit "count", JInt (Z.of_nat (length cats)));
                    (lit "categories", JArr (map JStr (sorted cats)))] 200
       | None => internal_error
       end.

Section CategoryFilter.
(** [str.lower] *)
Variable lower : pystr -> pystr.

(** The test of the loop of [get_songs_by_category]. *)
Definition in_category (category_name : pystr) (s : song) : bool :=
  existsb (str_eqb (lower category_name)) (map lower (field_or (categories s) [])).

Definition get_songs_by_category (g : github) (category_name : pystr) : response :=
  let (songs, error) := get_songs_data g in
  if truthy error then error_response error 500
  else match songs with
       | Some songs =>
           let filtered := filter (in_category category_name) songs in
           jsonify [(lit "category", JStr category_name);
                    (lit "count", JInt (Z.of_nat (length filtered)));
                    (lit "songs", JArr (map json_of_song filtered))] 200
       | None => internal_error
       end.

End CategoryFilter.

Section Random.
(** [random._randbelow]: the index [random.choice] draws for a sequence
    of the given length. *)
Variable randbelow : nat -> nat.

Definition get_random_song (g : github) : response :=
  let (songs, error) := get_songs_data g in
  if truthy error then error_response error 500
  else match songs with
       | None | Some [] => error_response (Some (lit "No songs available")) 404
       | Some songs =>
           match nth_error songs (randbelow (length songs)) with
           | Some s => {| status := 200; body := json_of_song s |}
           | None => internal_error
           end
       end.

End Random.

(** [list(d.keys())] *)
Definition py_keys (v : json) : res (list pystr) :=
  match v with
  | JObj d => Val (map fst d)
  | _ => Raised (no_attribute v "keys")
  end.

Definition get_user_count (g : github) : response :=
  let (all_favs, error) := get_all_favorites g in
  if truthy error then error_response error 500
  else match (n <- py_len all_favs ;; users <- py_keys all_favs ;; Val (n, users)) with
       | Raised _ => internal_error
       | Val (n, users) =>
           jsonify [(lit "total_users", JInt (Z.of_nat n));
                    (lit "users", JArr (map JStr users))] 200
       end.

(* ================================================================== *)
(** ** Vocabulary of the further statements *)

(** A pattern without groups. *)
Fixpoint no_group (r : regex) : bool :=
  match r with
  | Eps | Cls _ | Star _ _ => true
  | Seq r1 r2 => no_group r1 && no_group r2
  | Grp _ => false
  end.

(** A catalog whose load succeeds. *)
Definition catalog_is (g : github) (songs : list song) : Prop :=
  repo g = true /\ sheets_file g = Sheets songs.

(** A catalog whose load fails with a message. *)
Definition catalog_fails (g : github) (msg : pystr) : Prop :=
  msg <> []
  /\ ((repo g = false
       /\ msg = lit "GitHub not configured - check GITHUB_TOKEN environment variable")
      \/ (repo g = true /\ sheets_file g = SheetsRaise msg)).

(** The store holds the mapping [m], with distinct user ids and safe ids,
    and writes succeed. *)
Definition store_holds (g : github) (m : favmap) : Prop :=
  get_all_favorites g = (JObj (json_of_favs m), None)
  /\ NoDup (map fst m)
  /\ safe_favs m = true
  /\ update_error g = None.

(** The artist a song counts under in the statistics. *)
Definition artist_of (s : song) : pystr := field_or (artist s) (lit "Unknown").

(** [l] in strictly ascending order. *)
Fixpoint ascending (l : list pystr) : bool :=
  match l with
  | [] => true
  | x :: l' =>
      match l' with
      | [] => true
      | y :: _ => str_leb x y && negb (str_eqb x y) && ascending l'
      end
  end.

(** The value of an integer field of a response. *)
Definition int_field (r : response) (name : string) : option Z :=
  match dict_get (fields r) (lit name) with
  | Some (JInt z) => Some z
  | _ => None
  end.

(** The number of occurrences of a song id in a list. *)
Definition occurrences (x : pystr) (l : list pystr) : nat :=
  length (filter (str_eqb x) l).

(** [l] without the first occurrence of [x]. *)
Fixpoint remove_one (x : pystr) (l : list pystr) : list pystr :=
  match l with
  | [] => []
  | y :: l' => if str_eqb x y then l' else y :: remove_one x l'
  end.

(** An index drawn in range: the first element. *)
Definition first_index (n : nat) : nat := 0.

(** A catalog with categories and artists, for the examples. *)
Definition song_in (t : string) (cats : list pystr) (a : option pystr) : song :=
  {| title := Some (lit t); artist := a; url := None; difficulty := None;
     thumbnail := None; categories := Some cats; sheets := None |}.

Definition tagged_catalog : list song :=
  [song_in "Ode" [lit "Pop"; lit "Anime"] (Some (lit "Bach"));
   song_in "Joy" [lit "Anime"] None;
   song_in "Air" [] (Some (lit "Unknown Artist"))].

Definition tagged_store : github :=
  {| repo := true;
     repo_name := lit "orb1ispare/piano-sheets-db";
     sheets_file := Sheets tagged_catalog;
     favorites_file := GetContentsRaises (lit "404");
     update_error := None |}.

(** A repository whose catalog fetch raises. *)
Definition broken_catalog_store : github :=
  {| repo := true;
     repo_name := lit "orb1ispare/piano-sheets-db";
     sheets_file := SheetsRaise (lit "timeout");
     favorites_file := Content example_text_no_comment;
     update_error := None |}.

(* ================================================================== *)
(** * Properties *)

Unset Implicit Arguments.

(** Concatenations brought to right-nested form. *)
Ltac app_norm :=
  repeat (rewrite <- app_assoc || rewrite <- app_comm_cons); rewrite ?app_nil_r.

(** ** Strings *)

Lemma str_eqb_eq (a b : pystr) : str_eqb a b = true <-> a = b.
Proof.
  revert b; induction a as [|x a IH]; intros [|y b]; simpl; split; intro H;
    try reflexivity; try discriminate.
  - apply andb_prop in H as [Hx Hab]. apply N.eqb_eq in Hx. apply IH in Hab. congruence.
  - injection H as -> ->. rewrite N.eqb_refl. simpl. now apply IH.
Qed.

Lemma str_eqb_refl (a : pystr) : str_eqb a a = true.
Proof. now apply str_eqb_eq. Qed.

Lemma str_eqb_neq (a b : pystr) : str_eqb a b = false <-> a <> b.
Proof.
  split; intro H.
  - intro E. apply str_eqb_eq in E. congruence.
  - destruct (str_eqb a b) eqn:E; [apply str_eqb_eq in E; contradiction | reflexivity].
Qed.

Lemma startswith_spec (p s : pystr) : startswith p s = true <-> exists b, s = p ++ b.
Proof.
  revert s; induction p as [|x p IH]; intros s; simpl.
  - split; [intros _; now exists s | reflexivity].
  - destruct s as [|y s].
    + split; [discriminate | intros [b Hb]; discriminate].
    + rewrite andb_true_iff, N.eqb_eq, IH. split.
      * intros [-> [b ->]]. now exists b.
      * intros [b Hb]. injection Hb as -> ->. split; [reflexivity | now exists b].
Qed.

Lemma anywhere_spec (P : pystr -> bool) (s : pystr) :
  anywhere P s = true <-> exists a t, s = a ++ t /\ P t = true.
Proof.
  induction s as [|c s IH].
  - simpl. rewrite orb_false_r. split.
    + intro H. now exists [], [].
    + intros (a & t & E & H). symmetry in E. apply app_eq_nil in E as [_ ->]. exact H.
  - simpl. rewrite orb_true_iff, IH. split.
    + intros [H | (a & t & -> & H)].
      * now exists [], (c :: s).
      * now exists (c :: a), t.
    + intros ([|x a] & t & E & H).
      * left. simpl in E. now subst t.
      * right. injection E as -> ->. now exists a, t.
Qed.

Lemma anywhere_false (P : pystr -> bool) (a t : pystr) :
  anywhere P (a ++ t) = false -> P t = false.
Proof.
  intro H. destruct (P t) eqn:E; [|reflexivity].
  assert (anywhere P (a ++ t) = true) by (apply anywhere_spec; now exists a, t).
  congruence.
Qed.

(** [needle in hay] holds exactly when [hay] has [needle] as a substring. *)
Lemma contains_spec (needle hay : pystr) :
  contains needle hay = true <-> exists a b, hay = a ++ needle ++ b.
Proof.
  unfold contains. rewrite anywhere_spec. split.
  - intros (a & t & -> & H). apply startswith_spec in H as [b ->]. now exists a, b.
  - intros (a & b & ->). exists a, (needle ++ b). split; [reflexivity|].
    apply startswith_spec. now exists b.
Qed.

(** [s.endswith(p)] holds exactly when [s] ends in [p]. *)
Lemma endswith_spec (s p : pystr) : endswith s p = true <-> exists a, s = a ++ p.
Proof.
  unfold endswith. rewrite startswith_spec. split.
  - intros [b E]. exists (rev b).
    rewrite <- (rev_involutive s), E, rev_app_distr, rev_involutive. reflexivity.
  - intros [a ->]. exists (rev a). now rewrite rev_app_distr.
Qed.

Lemma lstrip_by_all (p : char -> bool) (s : pystr) :
  forallb p s = true -> lstrip_by p s = [].
Proof.
  induction s as [|c s IH]; simpl; [reflexivity|].
  intro H. apply andb_prop in H as [-> H]. now apply IH.
Qed.

Lemma strip_blank (s : pystr) : forallb is_space s = true -> strip s = [].
Proof. intro H. unfold strip. now rewrite (lstrip_by_all _ _ H). Qed.

(** ** Dictionaries *)

Lemma dict_get_set_same {V} (d : dict V) (k : pystr) (v : V) :
  dict_get (dict_set d k v) k = Some v.
Proof.
  induction d as [|[k' v'] d IH]; simpl.
  - now rewrite str_eqb_refl.
  - destruct (str_eqb k' k) eqn:E; simpl; rewrite E; [reflexivity | exact IH].
Qed.

Lemma dict_get_set_other {V} (d : dict V) (k k0 : pystr) (v : V) :
  k0 <> k -> dict_get (dict_set d k v) k0 = dict_get d k0.
Proof.
  intro Hne. induction d as [|[k' v'] d IH]; simpl.
  - destruct (str_eqb k k0) eqn:E; [apply str_eqb_eq in E; congruence | reflexivity].
  - destruct (str_eqb k' k) eqn:E; simpl.
    + apply str_eqb_eq in E. subst k'.
      destruct (str_eqb k k0) eqn:E'; [apply str_eqb_eq in E'; congruence | reflexivity].
    + now rewrite IH.
Qed.

Lemma dict_set_keys {V} (d : dict V) (k : pystr) (v : V) (k0 : pystr) :
  In k0 (map fst (dict_set d k v)) <-> k0 = k \/ In k0 (map fst d).
Proof.
  induction d as [|[k' v'] d IH]; simpl.
  - split; [intros [H | []]; auto | intros [H | []]; auto].
  - destruct (str_eqb k' k) eqn:E; simpl.
    + apply str_eqb_eq in E. subst k'. intuition congruence.
    + rewrite IH. intuition congruence.
Qed.

Lemma dict_set_NoDup {V} (d : dict V) (k : pystr) (v : V) :
  NoDup (map fst d) -> NoDup (map fst (dict_set d k v)).
Proof.
  induction d as [|[k' v'] d IH]; simpl; intro H.
  - constructor; [intros [] | constructor].
  - inversion H as [|? ? Hnin Hd]; subst.
    destruct (str_eqb k' k) eqn:E; simpl.
    + now constructor.
    + constructor; [|now apply IH].
      rewrite dict_set_keys. intros [-> | Hin]; [|contradiction].
      rewrite str_eqb_refl in E. discriminate.
Qed.

(** ** The scanner never runs out of fuel *)

Lemma skip_ws_length (s : pystr) : length (skip_ws s) <= length s.
Proof.
  induction s as [|c s IH]; simpl; [lia|].
  destruct (is_json_ws c); simpl; lia.
Qed.

Lemma consumes_scan_cons (c : char) (r : scan pystr) (s s' : pystr) :
  consumes r s' -> length s' <= length s -> consumes (scan_cons c r) s.
Proof. destruct r; simpl; intros; try lia; assumption. Qed.

Lemma scanstring_consumes (n : nat) :
  forall s, length s <= n -> s <> [] -> consumes (scanstring s) s.
Proof.
  induction n as [|n IH]; intros s Hn Hne.
  - destruct s; [contradiction | simpl in Hn; lia].
  - destruct s as [|c s]; [contradiction|]. clear Hne.
    assert (Hrec : forall s' c', length s' < length (c :: s) ->
                                 consumes (scan_cons c' (scanstring s')) (c :: s)).
    { intros s' c' Hl. destruct s' as [|x s'].
      - exact I.
      - apply (consumes_scan_cons c' _ (c :: s) (x :: s')); [|lia].
        apply IH; [simpl in *; lia | discriminate]. }
    cbn [scanstring].
    repeat match goal with
           | |- consumes (if ?b then _ else _) _ => destruct b
           | |- consumes (match ?x with _ => _ end) _ => destruct x
           end;
      try exact I; try (simpl; lia); try (apply Hrec; simpl; lia).
Qed.

Lemma span_digits_length (s : pystr) : length (snd (span_digits s)) <= length s.
Proof.
  induction s as [|c s IH]; simpl; [lia|].
  destruct (is_digit c); [|simpl; lia].
  destruct (span_digits s) as [ds r]. simpl in *. lia.
Qed.

Lemma match_number_consumes (s : pystr) : consumes (match_number s) s.
Proof.
  unfold match_number.
  assert (Hsd : forall x, length (snd (span_digits x)) <= length x)
    by apply span_digits_length.
  destruct s as [|c s]; [exact I|].
  destruct (N.eqb c 45); (destruct s as [|c1 s2]; [try exact I|]);
    repeat (cbv beta iota zeta;
            match goal with
            | |- context [span_digits ?x] =>
                let H := fresh "H" in
                pose proof (Hsd x) as H; destruct (span_digits x); cbn [snd] in H
            | |- context [match ?x with _ => _ end] => is_var x; destruct x
            | |- context [if ?b then _ else _] => destruct b
            end);
    try exact I; simpl in *; try lia.
Qed.

Section ContainerFuel.
Variable scan_value : pystr -> scan json.
Variable bound : nat.
Hypothesis scan_value_consumes :
  forall s, length s < bound -> s <> [] -> consumes (scan_value s) s.
Hypothesis scan_value_nil : scan_value [] = DecodeError.

Lemma scan_value_any (s : pystr) :
  length s < bound ->
  match scan_value s with
  | Scanned _ rest => length rest < length s
  | DecodeError => True
  | Exhausted => False
  end.
Proof.
  intro H. destruct s as [|c s]; [now rewrite scan_value_nil|].
  apply (scan_value_consumes (c :: s) H). discriminate.
Qed.

Lemma parse_array_loop_consumes (n : nat) :
  forall acc s, length s < n -> length s < bound ->
                consumes (parse_array_loop scan_value n acc s) (0%N :: s).
Proof.
  induction n as [|n IH]; intros acc s Hn Hb; [lia|].
  cbn [parse_array_loop].
  pose proof (scan_value_any s Hb) as Hv.
  destruct (scan_value s) as [v s1| |]; [|exact I|contradiction].
  pose proof (skip_ws_length s1) as H1.
  destruct (skip_ws s1) as [|c s2]; [exact I|].
  destruct (N.eqb c 93); [simpl in *; lia|].
  destruct (N.eqb c 44); [|exact I].
  pose proof (skip_ws_length s2) as H2.
  specialize (IH (acc ++ [v]) (skip_ws s2)).
  simpl in H1.
  destruct (parse_array_loop scan_value n (acc ++ [v]) (skip_ws s2));
    simpl in *; try exact I; try (apply IH; lia).
  assert (length rest < S (length (skip_ws s2))) by (apply IH; lia). lia.
Qed.

Lemma parse_array_consumes (n : nat) (s : pystr) :
  length s < n -> length s < bound ->
  consumes (parse_array scan_value n s) (0%N :: s).
Proof.
  intros Hn Hb. unfold parse_array.
  pose proof (skip_ws_length s) as H1.
  destruct (skip_ws s) as [|c s'] eqn:E; [exact I|].
  destruct (N.eqb c 93); [simpl in *; lia|].
  pose proof (parse_array_loop_consumes n [] (c :: s')) as H.
  destruct (parse_array_loop scan_value n [] (c :: s'));
    simpl in *; try exact I; try (apply H; lia).
  assert (length rest < S (S (length s'))) by (apply H; lia). lia.
Qed.

Lemma parse_object_loop_consumes (n : nat) :
  forall d s, length s < n -> length s < bound ->
              consumes (parse_object_loop scan_value n d s) (0%N :: s).
Proof.
  induction n as [|n IH]; intros d s Hn Hb; [lia|].
  cbn [parse_object_loop].
  destruct s as [|q s0]; [exact I|].
  destruct (N.eqb q dquote); [|exact I].
  destruct s0 as [|x s0'] eqn:E0; [exact I|]. rewrite <- E0 in *.
  assert (Hk : consumes (scanstring s0) s0).
  { apply (scanstring_consumes (length s0)); [lia | rewrite E0; discriminate]. }
  destruct (scanstring s0) as [key s1| |]; [|exact I|contradiction].
  simpl in Hk, Hn, Hb.
  pose proof (skip_ws_length s1) as H1.
  destruct (skip_ws s1) as [|c1 s2]; [exact I|].
  destruct (N.eqb c1 58); [|exact I].
  pose proof (skip_ws_length s2) as H2. simpl in H1.
  assert (Hv := scan_value_any (skip_ws s2) ltac:(lia)).
  destruct (scan_value (skip_ws s2)) as [v s3| |]; [|exact I|contradiction].
  pose proof (skip_ws_length s3) as H3.
  destruct (skip_ws s3) as [|c2 s4]; [exact I|].
  destruct (N.eqb c2 125); [simpl in *; lia|].
  destruct (N.eqb c2 44); [|exact I].
  pose proof (skip_ws_length s4) as H4. simpl in H3.
  specialize (IH (dict_set d key v) (skip_ws s4)).
  destruct (parse_object_loop scan_value n (dict_set d key v) (skip_ws s4));
    simpl in *; try exact I; try (apply IH; lia).
  assert (length rest < S (length (skip_ws s4))) by (apply IH; lia). lia.
Qed.

Lemma parse_object_consumes (n : nat) (s : pystr) :
  length s < n -> length s < bound ->
  consumes (parse_object scan_value n s) (0%N :: s).
Proof.
  intros Hn Hb. unfold parse_object.
  pose proof (skip_ws_length s) as H1.
  destruct (skip_ws s) as [|c s'] eqn:E; [exact I|].
  destruct (N.eqb c 125); [simpl in *; lia|].
  pose proof (parse_object_loop_consumes n [] (c :: s')) as H.
  destruct (parse_object_loop scan_value n [] (c :: s'));
    simpl in *; try exact I; try (apply H; lia).
  assert (length rest < S (S (length s'))) by (apply H; lia). lia.
Qed.

End ContainerFuel.

Lemma scan_once_consumes (f : nat) :
  forall s, length s < f -> s <> [] -> consumes (scan_once f s) s.
Proof.
  induction f as [|f IH]; intros s Hf Hne; [lia|].
  destruct s as [|c s]; [contradiction|]. clear Hne. simpl in Hf.
  assert (Hs : length s < f) by lia.
  assert (Hnil : scan_once f [] = DecodeError) by (destruct f; [lia | reflexivity]).
  cbn [scan_once].
  destruct (N.eqb c dquote).
  { destruct s as [|x s'] eqn:E; [exact I|]. rewrite <- E in *.
    assert (Hk : consumes (scanstring s) s).
    { apply (scanstring_consumes (length s)); [lia | rewrite E; discriminate]. }
    destruct (scanstring s); simpl in *; [lia | exact I | contradiction]. }
  destruct (N.eqb c 123).
  { apply (parse_object_consumes (scan_once f) f IH Hnil f s Hs Hs). }
  destruct (N.eqb c 91).
  { apply (parse_array_consumes (scan_once f) f IH Hnil f s Hs Hs). }
  repeat match goal with
         | |- consumes (if ?b then _ else _) _ => destruct b
         end;
    try apply match_number_consumes;
    cbn [consumes]; rewrite length_skipn; simpl; lia.
Qed.

(** With more fuel than characters the scanner does not run out. *)
Lemma scan_once_fuel (f : nat) (s : pystr) : length s < f -> scan_once f s <> Exhausted.
Proof.
  intros Hf E. destruct s as [|c s].
  - destruct f; [simpl in Hf; lia | discriminate].
  - pose proof (scan_once_consumes f (c :: s) Hf ltac:(discriminate)) as H.
    now rewrite E in H.
Qed.

Lemma json_loads_no_recursion_error (s : pystr) : json_loads s <> RecursionError.
Proof.
  unfold json_loads. destruct (startswith _ s); [discriminate|].
  pose proof (scan_once_fuel (S (length s)) (skip_ws s)) as H.
  pose proof (skip_ws_length s) as Hl.
  destruct (scan_once (S (length s)) (skip_ws s)) as [v rest| |].
  - destruct (skip_ws rest); discriminate.
  - discriminate.
  - exfalso. apply H; [lia | reflexivity].
Qed.

(** The parser itself reports no error: a text it cannot read is an empty
    mapping. *)
Lemma parse_favorites_no_error (content : pystr) : snd (parse_favorites content) = None.
Proof.
  unfold parse_favorites. destruct (search re_favorites content) as [m|]; [|reflexivity].
  cbv zeta.
  match goal with
  | |- context [json_loads ?x] =>
      pose proof (json_loads_no_recursion_error x) as H; destruct (json_loads x)
  end; [reflexivity | reflexivity | contradiction].
Qed.

(** ** The example of the tolerant parser *)

Lemma parser_example_refuted :
  get_all_favorites (store_with example_text) <> (example_mapping, None).
Proof. vm_compute. discriminate. Qed.

(** C1 (as amended): on the text with the block comment the parser gives
    the empty mapping and no error, because only line comments are removed
    and the JSON decoder rejects the rest; without the block comment, or
    with it written as a line comment, the parser gives the mapping
    u1 -> [a, b], u2 -> [c] and no error. *)
Theorem parser_example :
  get_all_favorites (store_with example_text) = (JObj [], None)
  /\ get_all_favorites (store_with example_text_no_comment) = (example_mapping, None)
  /\ get_all_favorites (store_with example_text_line_comment) = (example_mapping, None).
Proof. repeat split; vm_compute; reflexivity. Qed.

(** ** Reading favorites *)

Lemma read_fails_all_favorites (g : github) :
  read_fails g -> exists error, get_all_favorites g = (JObj [], error).
Proof.
  unfold get_all_favorites. intros [H | [[msg H] | [msg H]]].
  - rewrite H. now eexists.
  - rewrite H. destruct (repo g); now eexists.
  - rewrite H. destruct (repo g); now eexists.
Qed.

(** C3 (what the code does): whenever reading the favorites fails, the
    route answers 200 with an empty list and no error field; this
    includes the failure of a repository that is not configured. *)
Theorem favorites_route_swallows_every_error (g : github) (user_id : pystr) :
  read_fails g ->
  get_favorites_route g user_id
  = jsonify [(lit "user_id", JStr user_id); (lit "count", JInt 0);
             (lit "favorites", JArr [])] 200.
Proof.
  intro H. destruct (read_fails_all_favorites g H) as [error E].
  unfold get_favorites_route, get_user_favorites. rewrite E.
  destruct (truthy error) eqn:T; cbn [bind py_get dict_get_default dict_get].
  - rewrite T. now destruct (negb _).
  - reflexivity.
Qed.

Lemma favorites_route_swallows_every_error_witness :
  read_fails store_not_configured
  /\ snd (get_all_favorites store_not_configured) = Some (lit "GitHub not configured")
  /\ get_favorites_route store_not_configured (lit "u1")
     = jsonify [(lit "user_id", JStr (lit "u1")); (lit "count", JInt 0);
                (lit "favorites", JArr [])] 200.
Proof.
  split; [now left|]. split; [reflexivity|].
  apply (favorites_route_swallows_every_error store_not_configured (lit "u1")).
  now left.
Defined.

(** ** The favorites routes *)

Section Favorites.
Variable py_str : json -> pystr.
Variable now : datetime.

(** C4 (what the code does): adding a song that is already a favorite, and
    removing one that is not, answer 200 with the fields message, user_id
    and favorites, and without the field count. *)
Theorem idempotent_answers_lack_count :
  let g := store_with (lit "favorites = {'u1': ['a']};") in
  let added := fst (add_favorite py_str now g (lit "u1") (GET [(lit "song_id", lit "a")])) in
  let removed := fst (remove_favorite py_str now g (lit "u1") (GET [(lit "song_id", lit "b")])) in
  status added = 200
  /\ map fst (fields added) = [lit "message"; lit "user_id"; lit "favorites"]
  /\ has_field added "count" = false
  /\ status removed = 200
  /\ map fst (fields removed) = [lit "message"; lit "user_id"; lit "favorites"]
  /\ has_field removed "count" = false.
Proof. repeat split; reflexivity. Qed.

(** C5: when the request carries a song id that is already in the user's
    favorites, the add route leaves the repository as it is and answers
    200 with the message Already in favorites. *)
Theorem add_present_no_write (g : github) (user_id : pystr) (req : request)
  (song_id : pystr) (favorites : json) (error : option pystr) :
  request_song_id req = Some song_id ->
  song_id <> [] ->
  get_user_favorites g user_id = Val (favorites, error) ->
  truthy error = false ->
  py_contains song_id favorites = Val true ->
  add_favorite py_str now g user_id req
  = (jsonify [(lit "message", JStr (lit "Already in favorites"));
              (lit "user_id", JStr user_id);
              (lit "favorites", favorites)] 200, g).
Proof.
  intros Hreq Hne Hget Herr Hin. unfold add_favorite.
  rewrite Hreq. destruct song_id as [|c song_id]; [contradiction|].
  now rewrite Hget, Herr, Hin.
Qed.

(** C6: when the request carries a song id that is not in the user's
    favorites, the remove route leaves the repository as it is and answers
    200 with the message Not in favorites. *)
Theorem remove_absent_no_write (g : github) (user_id : pystr) (req : request)
  (song_id : pystr) (favorites : json) (error : option pystr) :
  request_song_id req = Some song_id ->
  song_id <> [] ->
  get_user_favorites g user_id = Val (favorites, error) ->
  truthy error = false ->
  py_contains song_id favorites = Val false ->
  remove_favorite py_str now g user_id req
  = (jsonify [(lit "message", JStr (lit "Not in favorites"));
              (lit "user_id", JStr user_id);
              (lit "favorites", favorites)] 200, g).
Proof.
  intros Hreq Hne Hget Herr Hin. unfold remove_favorite.
  rewrite Hreq. destruct song_id as [|c song_id]; [contradiction|].
  now rewrite Hget, Herr, Hin.
Qed.

End Favorites.

Lemma add_present_no_write_witness :
  add_favorite str_of_string noon (store_with example_text_no_comment) (lit "u1")
    (GET [(lit "song_id", lit "b")])
  = (jsonify [(lit "message", JStr (lit "Already in favorites"));
              (lit "user_id", JStr (lit "u1"));
              (lit "favorites", JArr [JStr (lit "a"); JStr (lit "b")])] 200,
     store_with example_text_no_comment).
Proof.
  apply (add_present_no_write str_of_string noon (store_with example_text_no_comment)
           (lit "u1") (GET [(lit "song_id", lit "b")]) (lit "b")
           (JArr [JStr (lit "a"); JStr (lit "b")]) None).
  - reflexivity.
  - discriminate.
  - vm_compute. reflexivity.
  - reflexivity.
  - reflexivity.
Defined.

Lemma remove_absent_no_write_witness :
  remove_favorite str_of_string noon (store_with example_text_no_comment) (lit "u1")
    (POST [] (Some [(lit "song_id", lit "c")]))
  = (jsonify [(lit "message", JStr (lit "Not in favorites"));
              (lit "user_id", JStr (lit "u1"));
              (lit "favorites", JArr [JStr (lit "a"); JStr (lit "b")])] 200,
     store_with example_text_no_comment).
Proof.
  apply (remove_absent_no_write str_of_string noon (store_with example_text_no_comment)
           (lit "u1") (POST [] (Some [(lit "song_id", lit "c")])) (lit "c")
           (JArr [JStr (lit "a"); JStr (lit "b")]) None).
  - reflexivity.
  - discriminate.
  - vm_compute. reflexivity.
  - reflexivity.
  - reflexivity.
Defined.

(** ** Search *)

Section SearchProps.
Variable lower : pystr -> pystr.

(** Lowercasing leaves a string of whitespace a string of whitespace. *)
Hypothesis lower_blank :
  forall s, forallb is_space s = true -> forallb is_space (lower s) = true.

(** C7: a search whose [q] is missing, empty or whitespace only is answered
    400 with an error body, whatever the state of the repository and of
    the catalog. *)
Theorem search_blank_query_400 (g : github) (args : dict pystr) :
  blank (dict_get args (lit "q")) ->
  search_songs lower g args
  = error_response
      (Some (lit "Query parameter " ++ [dquote] ++ lit "q" ++ [dquote] ++ lit " is required"))
      400.
Proof.
  intro Hq. unfold search_songs, dict_get_default.
  assert (Hs : strip (lower match dict_get args (lit "q") with
                            | Some v => v
                            | None => []
                            end) = []).
  { apply strip_blank, lower_blank.
    destruct (dict_get args (lit "q")); [exact Hq | reflexivity]. }
  now rewrite Hs.
Qed.

End SearchProps.

Lemma search_blank_query_400_witness :
  search_songs (fun s => s)
    {| repo := true; repo_name := []; sheets_file := SheetsRaise (lit "timeout");
       favorites_file := Content []; update_error := None |}
    [(lit "q", lit "   ")]
  = error_response
      (Some (lit "Query parameter " ++ [dquote] ++ lit "q" ++ [dquote] ++ lit " is required"))
      400.
Proof.
  apply (search_blank_query_400 (fun s => s) (fun s H => H)).
  reflexivity.
Defined.

(** ** Statistics *)

Lemma hist_total_set (h : dict nat) (k : pystr) :
  hist_total (dict_set h k (dict_get_default h k 0 + 1)) = hist_total h + 1.
Proof.
  unfold hist_total, dict_get_default.
  induction h as [|[k' n] h IH]; simpl; [reflexivity|].
  destruct (str_eqb k' k); simpl; [lia|].
  rewrite IH. lia.
Qed.

Lemma stats_fold_step (songs : list song) (s : song) (acc : stats_acc) :
  fold_left stats_step (s :: songs) acc = fold_left stats_step songs (stats_step acc s).
Proof. reflexivity. Qed.

Lemma stats_fold_total (songs : list song) (acc : stats_acc) :
  hist_total (difficulties (fold_left stats_step songs acc))
  = hist_total (difficulties acc) + length songs.
Proof.
  revert acc; induction songs as [|s songs IH]; intro acc.
  - simpl. lia.
  - rewrite stats_fold_step, IH.
    change (difficulties (stats_step acc s))
      with (dict_set (difficulties acc) (bucket_of s)
              (dict_get_default (difficulties acc) (bucket_of s) 0 + 1)).
    rewrite hist_total_set. simpl. lia.
Qed.

Lemma stats_fold_bucket (d : pystr) (songs : list song) (acc : stats_acc) :
  dict_get_default (difficulties (fold_left stats_step songs acc)) d 0
  = dict_get_default (difficulties acc) d 0 + songs_in_bucket d songs.
Proof.
  revert acc; induction songs as [|s songs IH]; intro acc.
  - unfold songs_in_bucket. simpl. lia.
  - rewrite stats_fold_step, IH.
    change (difficulties (stats_step acc s))
      with (dict_set (difficulties acc) (bucket_of s)
              (dict_get_default (difficulties acc) (bucket_of s) 0 + 1)).
    unfold songs_in_bucket. simpl.
    destruct (str_eqb (bucket_of s) d) eqn:E.
    + apply str_eqb_eq in E. subst d.
      unfold dict_get_default at 1. rewrite dict_get_set_same. simpl. lia.
    + apply str_eqb_neq in E.
      unfold dict_get_default at 1. rewrite dict_get_set_other by congruence.
      fold (dict_get_default (difficulties acc) d 0). lia.
Qed.

Lemma stats_fold_NoDup (songs : list song) (acc : stats_acc) :
  NoDup (map fst (difficulties acc)) ->
  NoDup (map fst (difficulties (fold_left stats_step songs acc))).
Proof.
  revert acc; induction songs as [|s songs IH]; intros acc H; [exact H|].
  rewrite stats_fold_step. apply IH. simpl. now apply dict_set_NoDup.
Qed.

Lemma get_stats_ok (g : github) :
  status (get_stats g) = 200 ->
  exists songs total_users total_favorites,
    sheets_file g = Sheets songs
    /\ fields (get_stats g)
       = [(lit "total_songs", JInt (Z.of_nat (length songs)));
          (lit "total_artists", JInt (Z.of_nat (length (artists (stats_loop songs)))));
          (lit "total_categories",
           JInt (Z.of_nat (length (all_categories (stats_loop songs)))));
          (lit "total_sheets", JInt (Z.of_nat (total_sheets (stats_loop songs))));
          (lit "total_users", JInt (Z.of_nat total_users));
          (lit "total_favorites", JInt (Z.of_nat total_favorites));
          (lit "difficulties", json_hist (difficulties (stats_loop songs)));
          (lit "database_file", JStr (lit "sheets/piano_sheets.json"));
          (lit "repository", JStr (repo_name g))].
Proof.
  unfold get_stats, get_songs_data.
  destruct (repo g); simpl; [|discriminate].
  destruct (sheets_file g) as [msg | songs]; simpl.
  - destruct msg; simpl; [|discriminate].
    destruct (get_all_favorites _); simpl; discriminate.
  - destruct (get_all_favorites _) as [all_favs e].
    match goal with
    | |- context [match ?r with Val _ => _ | Raised _ => _ end] => destruct r as [[u f] | msg]
    end; simpl; [|discriminate].
    intros _. now exists songs, u, f.
Qed.

(** C8: in every 200 answer of the stats route the histogram has one entry
    per difficulty, a song without the field counting under Unknown; the
    entry of a difficulty is the number of songs of that difficulty, and
    the entries add up to total_songs. *)
Theorem stats_histogram_sums_to_total (g : github) :
  status (get_stats g) = 200 ->
  exists songs hist,
    sheets_file g = Sheets songs
    /\ dict_get (fields (get_stats g)) (lit "total_songs")
       = Some (JInt (Z.of_nat (length songs)))
    /\ dict_get (fields (get_stats g)) (lit "difficulties") = Some (json_hist hist)
    /\ NoDup (map fst hist)
    /\ (forall d, dict_get_default hist d 0 = songs_in_bucket d songs)
    /\ hist_total hist = length songs.
Proof.
  intro H. destruct (get_stats_ok g H) as (songs & u & f & Hs & Hf).
  exists songs, (difficulties (stats_loop songs)).
  rewrite Hf. split; [exact Hs|]. split; [reflexivity|]. split; [reflexivity|].
  split; [|split].
  - apply stats_fold_NoDup. constructor.
  - intro d. unfold stats_loop. now rewrite stats_fold_bucket.
  - unfold stats_loop. now rewrite stats_fold_total.
Qed.

Lemma stats_histogram_sums_to_total_witness :
  status (get_stats example_catalog_store) = 200
  /\ exists songs hist,
       sheets_file example_catalog_store = Sheets songs
       /\ dict_get (fields (get_stats example_catalog_store)) (lit "total_songs")
          = Some (JInt (Z.of_nat (length songs)))
       /\ dict_get (fields (get_stats example_catalog_store)) (lit "difficulties")
          = Some (json_hist hist)
       /\ NoDup (map fst hist)
       /\ (forall d, dict_get_default hist d 0 = songs_in_bucket d songs)
       /\ hist_total hist = length songs.
Proof.
  split; [reflexivity|].
  apply (stats_histogram_sums_to_total example_catalog_store). reflexivity.
Defined.

(** ** Get by id *)

Lemma song_matches_spec (song_id : pystr) (s : song) :
  song_matches song_id s = true <-> id_matches song_id (url_of s).
Proof.
  unfold song_matches, id_matches, url_of.
  now rewrite orb_true_iff, contains_spec, endswith_spec.
Qed.

Lemma get_song_loop_first (song_id : pystr) (pre : list song) (s : song) (post : list song) :
  (forall x, In x pre -> ~ id_matches song_id (url_of x)) ->
  id_matches song_id (url_of s) ->
  get_song_loop song_id (pre ++ s :: post) = {| status := 200; body := json_of_song s |}.
Proof.
  intros Hpre Hs. induction pre as [|x pre IH]; simpl.
  - apply song_matches_spec in Hs. now rewrite Hs.
  - destruct (song_matches song_id x) eqn:E.
    + apply song_matches_spec in E. exfalso. apply (Hpre x); [now left | exact E].
    + apply IH. intros y Hy. apply Hpre. now right.
Qed.

Lemma get_song_loop_none (song_id : pystr) (songs : list song) :
  (forall x, In x songs -> ~ id_matches song_id (url_of x)) ->
  get_song_loop song_id songs = error_response (Some (lit "Song not found")) 404.
Proof.
  intro H. induction songs as [|x songs IH]; simpl; [reflexivity|].
  destruct (song_matches song_id x) eqn:E.
  - apply song_matches_spec in E. exfalso. apply (H x); [now left | exact E].
  - apply IH. intros y Hy. apply H. now right.
Qed.

(** C9: with the catalog loaded, get-by-id answers with the first song, in
    catalog order, whose url has the id as a substring or ends with a
    slash and the id; when no song does, it answers 404 Song not found. *)
Theorem get_song_first_match (g : github) (songs : list song) (song_id : pystr) :
  repo g = true ->
  sheets_file g = Sheets songs ->
  (forall pre s post,
      songs = pre ++ s :: post ->
      (forall x, In x pre -> ~ id_matches song_id (url_of x)) ->
      id_matches song_id (url_of s) ->
      get_song g song_id = {| status := 200; body := json_of_song s |})
  /\ ((forall x, In x songs -> ~ id_matches song_id (url_of x)) ->
      get_song g song_id = error_response (Some (lit "Song not found")) 404).
Proof.
  intros Hr Hs. unfold get_song, get_songs_data. rewrite Hr, Hs. simpl. split.
  - intros pre s post -> Hpre Hm. now apply get_song_loop_first.
  - apply get_song_loop_none.
Qed.

Lemma get_song_first_match_witness :
  get_song example_catalog_store (lit "joy")
  = {| status := 200;
       body := json_of_song (song_with "Ode" "https://sheets.example/ode-to-joy"
                               (Some (lit "Easy"))) |}.
Proof.
  apply (proj1 (get_song_first_match example_catalog_store example_catalog (lit "joy")
                  eq_refl eq_refl)
           [] _ (tl example_catalog) eq_refl).
  - intros x [].
  - left. exists (lit "https://sheets.example/ode-to-"), []. reflexivity.
Defined.

(** ** The text the serializer writes *)

Lemma bind_val {A B} (a : A) (k : A -> res B) : bind (Val a) k = k a.
Proof. reflexivity. Qed.

Lemma rstrip_comma_newline (x : pystr) :
  rstrip [44%N; newline] (x ++ lit "]," ++ [newline]) = x ++ lit "]".
Proof.
  unfold rstrip, rstrip_by.
  change (x ++ lit "]," ++ [newline]) with (x ++ [93%N; 44%N; 10%N]).
  rewrite rev_app_distr. simpl.
  now rewrite rev_involutive.
Qed.

Lemma after_song_join (s : pystr) (l : list pystr) (rest : pystr) :
  dquote :: s ++ dquote :: after_song l rest
  = join (lit ", ") (map (fun x => [dquote] ++ x ++ [dquote]) (s :: l)) ++ lit "]" ++ rest.
Proof.
  revert s; induction l as [|s' l IH]; intro s.
  - simpl. now rewrite <- app_assoc.
  - change (after_song (s' :: l) rest)
      with (lit ", " ++ dquote :: s' ++ dquote :: after_song l rest).
    rewrite IH.
    change (map (fun x => [dquote] ++ x ++ [dquote]) (s :: s' :: l))
      with (([dquote] ++ s ++ [dquote])
            :: map (fun x => [dquote] ++ x ++ [dquote]) (s' :: l)).
    change (join (lit ", ") (([dquote] ++ s ++ [dquote])
            :: map (fun x => [dquote] ++ x ++ [dquote]) (s' :: l)))
      with (([dquote] ++ s ++ [dquote]) ++ lit ", "
            ++ join (lit ", ") (map (fun x => [dquote] ++ x ++ [dquote]) (s' :: l))).
    simpl. rewrite <- !app_assoc. reflexivity.
Qed.

Lemma songs_text_join (l : list pystr) (rest : pystr) :
  songs_text l rest
  = lit "[" ++ join (lit ", ") (map (fun x => [dquote] ++ x ++ [dquote]) l) ++ lit "]" ++ rest.
Proof.
  destruct l as [|s l]; [reflexivity|].
  unfold songs_text. now rewrite after_song_join.
Qed.

Section SerializerProps.
Variable py_str : json -> pystr.
Hypothesis py_str_string : forall s, py_str (JStr s) = s.

Lemma map_quoted (l : list pystr) :
  map (quoted py_str) (map JStr l) = map (fun x => [dquote] ++ x ++ [dquote]) l.
Proof.
  rewrite map_map. apply map_ext. intro s. unfold quoted. now rewrite py_str_string.
Qed.

Lemma js_entry_favs (acc u : pystr) (l : list pystr) :
  js_entry py_str acc (u, JArr (map JStr l)) = Val (acc ++ line_text u l).
Proof. unfold js_entry, line_text. simpl. now rewrite map_quoted. Qed.

Lemma js_entries_favs (m : favmap) (acc : pystr) :
  js_entries py_str acc (json_of_favs m)
  = Val (acc ++ concat (map (fun kv => line_text (fst kv) (snd kv)) m)).
Proof.
  revert acc; induction m as [|[u l] m IH]; intro acc.
  - simpl. now rewrite app_nil_r.
  - change (json_of_favs ((u, l) :: m)) with ((u, JArr (map JStr l)) :: json_of_favs m).
    change (js_entries py_str acc ((u, JArr (map JStr l)) :: json_of_favs m))
      with (bind (js_entry py_str acc (u, JArr (map JStr l)))
              (fun js => js_entries py_str js (json_of_favs m))).
    rewrite js_entry_favs. simpl bind. rewrite IH.
    simpl. now rewrite <- app_assoc.
Qed.

(** The lines of a non-empty mapping end with a bracket, a comma and a
    newline; without the comma and newline they are the entries of the
    stored text. *)
Lemma lines_shape (m : favmap) (u : pystr) (l : list pystr) (rest : pystr) :
  exists y,
    concat (map (fun kv => line_text (fst kv) (snd kv)) ((u, l) :: m))
    = y ++ lit "]," ++ [newline]
    /\ lit "  " ++ entry_text u l (after_entry m rest)
       = y ++ lit "]" ++ newline :: lit "}" ++ rest.
Proof.
  revert u l; induction m as [|[u' l'] m IH]; intros u l.
  - exists (lit "  " ++ [dquote] ++ u ++ [dquote] ++ lit ": ["
            ++ join (lit ", ") (map (fun x => [dquote] ++ x ++ [dquote]) l)).
    split.
    + simpl concat. rewrite app_nil_r. unfold line_text.
      rewrite <- !app_assoc. reflexivity.
    + unfold entry_text. rewrite songs_text_join. simpl after_entry.
      simpl. rewrite <- !app_assoc. simpl. reflexivity.
  - destruct (IH u' l') as (y & Hy1 & Hy2).
    exists (line_text u l ++ y). split.
    + change (concat (map (fun kv => line_text (fst kv) (snd kv)) ((u, l) :: (u', l') :: m)))
        with (line_text u l
              ++ concat (map (fun kv => line_text (fst kv) (snd kv)) ((u', l') :: m))).
      rewrite Hy1. now rewrite <- app_assoc.
    + change (after_entry ((u', l') :: m) rest)
        with (lit "," ++ newline :: lit "  " ++ entry_text u' l' (after_entry m rest)).
      rewrite Hy2. unfold entry_text, line_text. rewrite songs_text_join.
      simpl. rewrite <- !app_assoc. simpl. rewrite <- !app_assoc. reflexivity.
Qed.

Lemma js_content_favs (m : favmap) :
  js_content py_str (json_of_favs m)
  = Val (lit "export const favorites = " ++ body_text m ++ lit ";" ++ [newline]).
Proof.
  unfold js_content.
  pose proof (js_entries_favs m (lit "export const favorites = {" ++ [newline])) as H.
  set (X := js_entries _ _ _) in *. clearbody X. subst X.
  rewrite bind_val.
  destruct m as [|[u l] m].
  - vm_compute. reflexivity.
  - destruct (lines_shape m u l []) as (y & Hy1 & Hy2).
    rewrite Hy1, (app_assoc _ y), rstrip_comma_newline.
    unfold body_text.
    change (lit "{" ++ newline :: lit "  " ++ entry_text u l (after_entry m []))
      with (lit "{" ++ newline :: (lit "  " ++ entry_text u l (after_entry m []))).
    rewrite Hy2. f_equal. app_norm. reflexivity.
Qed.

End SerializerProps.

(** ** Matching the patterns *)

Lemma firstn_suffix (s r a : pystr) : s = a ++ r -> firstn (length s - length r) s = a.
Proof.
  intros ->. rewrite length_app, Nat.add_sub.
  rewrite firstn_app, Nat.sub_diag, firstn_all. simpl. now rewrite app_nil_r.
Qed.

Lemma star_lazy_cons {A} (p : char -> bool) (k : pystr -> option A) (c : char) (t : pystr) :
  star_lazy p k (c :: t)
  = match k (c :: t) with
    | Some a => Some a
    | None => if p c then star_lazy p k t else None
    end.
Proof. reflexivity. Qed.

Lemma star_lazy_skip {A} (p : char -> bool) (k : pystr -> option A) (a rest : pystr) :
  forallb p a = true ->
  (forall x c y, a = x ++ c :: y -> k (c :: y ++ rest) = None) ->
  star_lazy p k (a ++ rest) = star_lazy p k rest.
Proof.
  induction a as [|c a IH]; intros Hp Hk; [reflexivity|].
  simpl in Hp. apply andb_prop in Hp as [Hc Hp].
  change ((c :: a) ++ rest) with (c :: (a ++ rest)).
  rewrite star_lazy_cons, (Hk [] c a eq_refl), Hc.
  apply IH; [exact Hp|].
  intros x d y ->. apply (Hk (c :: x) d y). reflexivity.
Qed.

Lemma star_greedy_some {A} (p : char -> bool) (k : pystr -> option A) (s : pystr) (r : A) :
  star_greedy p k s = Some r ->
  exists a t, s = a ++ t /\ forallb p a = true /\ k t = Some r.
Proof.
  induction s as [|c s IH]; simpl; intro H.
  - now exists [], [].
  - destruct (p c) eqn:Hc.
    + destruct (star_greedy p k s) as [r'|] eqn:E.
      * injection H as ->. destruct (IH eq_refl) as (a & t & -> & Ha & Hk).
        exists (c :: a), t. simpl. now rewrite Hc, Ha.
      * now exists [], (c :: s).
    + now exists [], (c :: s).
Qed.

Lemma sub_no_match (r : regex) (repl : list pystr -> pystr) (s : pystr) :
  (forall a t, s = a ++ t -> match_at r t = None) -> sub r repl s = s.
Proof.
  unfold sub. induction s as [|c s IH]; intro H; [reflexivity|].
  simpl. rewrite (H [] (c :: s) eq_refl). f_equal. apply IH.
  intros a t ->. apply (H (c :: a) t). reflexivity.
Qed.

Lemma search_cons (r : regex) (c : char) (s : pystr) :
  search r (c :: s)
  = match match_at r (c :: s) with
    | Some (groups, _) => Some groups
    | None => search r s
    end.
Proof. reflexivity. Qed.

Lemma search_skip (r : regex) (a s : pystr) :
  (forall x c y, a = x ++ c :: y -> match_at r (c :: y ++ s) = None) ->
  search r (a ++ s) = search r s.
Proof.
  induction a as [|c a IH]; intro H; [reflexivity|].
  change ((c :: a) ++ s) with (c :: (a ++ s)).
  rewrite search_cons, (H [] c a eq_refl).
  apply IH. intros x d y ->. apply (H (c :: x) d y). reflexivity.
Qed.

Lemma match_favorites_not_f (c : char) (s : pystr) :
  c <> 102%N -> match_at re_favorites (c :: s) = None.
Proof.
  intro H. unfold match_at, re_favorites. cbn [rmatch Seqs Lit lit list_ascii_of_string map Chr].
  destruct (N_of_ascii "f" =? c)%N eqn:E; [|reflexivity].
  apply N.eqb_eq in E. subst c. now contradiction H.
Qed.

Lemma match_favorites (inner tail : pystr) :
  anywhere (startswith (lit "};")) (inner ++ lit "}") = false ->
  match_at re_favorites (lit "favorites = {" ++ inner ++ lit "};" ++ tail)
  = Some ([lit "favorites = {" ++ inner ++ lit "};"; lit "{" ++ inner ++ lit "}"], tail).
Proof.
  intro H. unfold match_at, re_favorites.
  cbn -[firstn length Nat.sub star_lazy N.eqb].
  rewrite star_lazy_skip.
  - cbn -[firstn length Nat.sub].
    rewrite (@firstn_suffix _ tail (lit "favorites = {" ++ inner ++ lit "};"))
      by (app_norm; reflexivity).
    rewrite (@firstn_suffix _ (59%N :: tail) (lit "{" ++ inner ++ lit "}"))
      by (app_norm; reflexivity).
    reflexivity.
  - clear. induction inner; [reflexivity | assumption].
  - intros x c y ->. rewrite <- app_assoc in H. apply anywhere_false in H.
    destruct (125 =? c)%N eqn:Ec; [|reflexivity].
    destruct y as [|d y].
    + reflexivity.
    + change (startswith (lit "};") ((c :: d :: y) ++ lit "}"))
        with ((125 =? c)%N && ((59 =? d)%N && true)) in H.
      rewrite Ec, andb_true_r in H. cbn [andb] in H.
      cbn -[firstn length Nat.sub N.eqb]. now rewrite H.
Qed.

Lemma search_skip_not_f (a s : pystr) :
  forallb not_f a = true -> search re_favorites (a ++ s) = search re_favorites s.
Proof.
  intro H. apply search_skip. intros x c y ->.
  rewrite forallb_app in H. apply andb_prop in H as [_ H]. simpl in H.
  apply andb_prop in H as [H _]. apply match_favorites_not_f.
  intros ->. discriminate.
Qed.

Lemma uint_codes_not_f (u : Decimal.uint) : forallb not_f (uint_codes u) = true.
Proof. induction u; simpl; auto. Qed.

Lemma pad2_not_f (n : nat) : forallb not_f (pad2 n) = true.
Proof. unfold pad2, decimal. destruct (n <? 10); simpl; apply uint_codes_not_f. Qed.

Lemma strftime_not_f (t : datetime) : forallb not_f (strftime t) = true.
Proof.
  unfold strftime. rewrite !forallb_app, !pad2_not_f.
  unfold decimal. rewrite uint_codes_not_f. reflexivity.
Qed.

Lemma search_module_text (now : datetime) (inner tail : pystr) :
  anywhere (startswith (lit "};")) (inner ++ lit "}") = false ->
  search re_favorites
    (new_content now (lit "export const favorites = {" ++ inner ++ lit "};" ++ tail))
  = Some [lit "favorites = {" ++ inner ++ lit "};"; lit "{" ++ inner ++ lit "}"].
Proof.
  intro H. unfold new_content.
  change (search re_favorites
            (lit "// Auto-generated "
             ++ 102%N :: (lit "avorites list" ++ [newline]
                          ++ lit "// Multi-user support - each user has their own ")
             ++ 102%N :: (lit "avorites" ++ [newline] ++ lit "// Updated: ")
             ++ strftime now
             ++ (lit " UTC" ++ [newline; newline] ++ lit "export const ")
             ++ (lit "favorites = {" ++ inner ++ lit "};" ++ tail))
          = Some [lit "favorites = {" ++ inner ++ lit "};"; lit "{" ++ inner ++ lit "}"]).
  rewrite search_skip_not_f by reflexivity.
  rewrite search_cons.
  replace (match_at re_favorites _) with (@None (list pystr * pystr)) by reflexivity.
  rewrite search_skip_not_f by reflexivity.
  rewrite search_cons.
  replace (match_at re_favorites _) with (@None (list pystr * pystr)) by reflexivity.
  rewrite search_skip_not_f by reflexivity.
  rewrite search_skip_not_f by apply strftime_not_f.
  rewrite search_skip_not_f by reflexivity.
  change (lit "favorites = {" ++ inner ++ lit "};" ++ tail)
    with (102%N :: (lit "avorites = {" ++ inner ++ lit "};" ++ tail)).
  rewrite search_cons.
  change (102%N :: (lit "avorites = {" ++ inner ++ lit "};" ++ tail))
    with (lit "favorites = {" ++ inner ++ lit "};" ++ tail).
  now rewrite (match_favorites inner tail H).
Qed.

Lemma match_line_comment_none (t : pystr) :
  startswith (lit "//") t = false -> match_at re_line_comment t = None.
Proof.
  unfold match_at, re_line_comment.
  destruct t as [|c [|d t]]; cbn -[firstn length Nat.sub star_lazy N.eqb]; try reflexivity.
  - now destruct (47 =? c)%N.
  - destruct (47 =? c)%N; [|reflexivity]. destruct (47 =? d)%N; [discriminate | reflexivity].
Qed.

Lemma closer_not_space (c : char) : closer c = true -> is_space c = false.
Proof.
  unfold closer. intro H. apply orb_prop in H as [H | H]; apply N.eqb_eq in H; now subst c.
Qed.

Lemma lstrip_by_app (p : char -> bool) (a : pystr) (d : char) (t : pystr) :
  forallb p a = true -> p d = false -> lstrip_by p (a ++ d :: t) = d :: t.
Proof.
  intros Ha Hd. induction a as [|c a IH]; simpl.
  - now rewrite Hd.
  - simpl in Ha. apply andb_prop in Ha as [-> Ha]. now apply IH.
Qed.

Lemma match_trailing_comma_none (t : pystr) :
  comma_closer_at t = false -> match_at re_trailing_comma t = None.
Proof.
  unfold match_at, re_trailing_comma, comma_closer_at.
  destruct t as [|c t]; [reflexivity|].
  cbn -[firstn length Nat.sub star_greedy N.eqb].
  rewrite (N.eqb_sym c 44). destruct (44 =? c)%N; [|reflexivity].
  cbn [andb]. intro H.
  match goal with |- ?x = None => destruct x as [r|] eqn:E end; [|reflexivity].
  apply star_greedy_some in E as (a & u & -> & Ha & Hk).
  destruct u as [|d u]; [discriminate|].
  destruct (closer d) eqn:Hd; [|discriminate].
  rewrite (@lstrip_by_app _ _ _ u Ha (@closer_not_space _ Hd)), Hd in H. discriminate.
Qed.

(** ** Text between double quotes *)

Lemma startswith_blind (p t b : pystr) :
  forallb (fun c => negb (N.eqb c dquote)) p = true ->
  startswith p (t ++ dquote :: b) = startswith p t.
Proof.
  revert t; induction p as [|x p IH]; intros t Hp; [reflexivity|].
  simpl in Hp. apply andb_prop in Hp as [Hx Hp].
  destruct t as [|y t]; simpl.
  - apply negb_true_iff in Hx. now rewrite Hx.
  - now rewrite IH.
Qed.

Lemma comma_closer_blind (t b : pystr) :
  comma_closer_at (t ++ dquote :: b) = comma_closer_at t.
Proof.
  destruct t as [|c t]; [reflexivity|].
  unfold comma_closer_at. change ((c :: t) ++ dquote :: b) with (c :: (t ++ dquote :: b)).
  f_equal. induction t as [|x t IH]; [reflexivity|].
  simpl. now destruct (is_space x).
Qed.

Lemma unsafe_at_blind (t b : pystr) : unsafe_at (t ++ dquote :: b) = unsafe_at t.
Proof.
  unfold unsafe_at.
  now rewrite !startswith_blind, comma_closer_blind by reflexivity.
Qed.

Lemma anywhere_dquote (a b : pystr) :
  anywhere unsafe_at (a ++ dquote :: b) = anywhere unsafe_at a || anywhere unsafe_at b.
Proof.
  induction a as [|c a IH].
  - change (anywhere unsafe_at ([] ++ dquote :: b))
      with (unsafe_at ([] ++ dquote :: b) || anywhere unsafe_at b).
    now rewrite unsafe_at_blind.
  - change (anywhere unsafe_at ((c :: a) ++ dquote :: b))
      with (unsafe_at ((c :: a) ++ dquote :: b) || anywhere unsafe_at (a ++ dquote :: b)).
    rewrite unsafe_at_blind, IH.
    change (anywhere unsafe_at (c :: a)) with (unsafe_at (c :: a) || anywhere unsafe_at a).
    now rewrite !orb_assoc.
Qed.

Lemma safe_id_plain (s : pystr) : safe_id s = true -> forallb plain_char s = true.
Proof. unfold safe_id. intro H. now apply andb_prop in H as [H _]. Qed.

Lemma safe_id_free (s : pystr) : safe_id s = true -> anywhere unsafe_at s = false.
Proof. unfold safe_id. intro H. apply andb_prop in H as [_ H]. now apply negb_true_iff. Qed.

Lemma after_song_free (l : list pystr) (rest : pystr) :
  forallb safe_id l = true ->
  anywhere unsafe_at (lit "]" ++ rest) = false ->
  anywhere unsafe_at (after_song l rest) = false.
Proof.
  intros Hl Hr. induction l as [|s l IH]; [exact Hr|].
  simpl in Hl. apply andb_prop in Hl as [Hs Hl].
  change (after_song (s :: l) rest)
    with (lit ", " ++ dquote :: s ++ dquote :: after_song l rest).
  rewrite !anywhere_dquote, (safe_id_free _ Hs), (IH Hl). reflexivity.
Qed.

Lemma songs_text_free (l : list pystr) (rest : pystr) :
  forallb safe_id l = true ->
  anywhere unsafe_at (lit "]" ++ rest) = false ->
  anywhere unsafe_at (lit ": []" ++ rest) = false ->
  anywhere unsafe_at (lit ": " ++ songs_text l rest) = false.
Proof.
  intros Hl Hr He. destruct l as [|s l]; [exact He|].
  simpl in Hl. apply andb_prop in Hl as [Hs Hl].
  change (lit ": " ++ songs_text (s :: l) rest)
    with (lit ": [" ++ dquote :: s ++ dquote :: after_song l rest).
  rewrite !anywhere_dquote, (safe_id_free _ Hs), (after_song_free _ _ Hl Hr). reflexivity.
Qed.

Lemma after_entry_free (m : favmap) :
  safe_favs m = true ->
  anywhere unsafe_at (lit "]" ++ after_entry m []) = false
  /\ anywhere unsafe_at (lit ": []" ++ after_entry m []) = false.
Proof.
  induction m as [|[u l] m IH]; intro H; [split; reflexivity|].
  simpl in H. apply andb_prop in H as [Hul Hm]. apply andb_prop in Hul as [Hu Hl].
  destruct (IH Hm) as [IH1 IH2].
  pose proof (songs_text_free l _ Hl IH1 IH2) as Hs.
  split.
  - change (lit "]" ++ after_entry ((u, l) :: m) [])
      with ((lit "]," ++ newline :: lit "  ")
            ++ dquote :: u ++ dquote :: lit ": " ++ songs_text l (after_entry m [])).
    rewrite !anywhere_dquote, (safe_id_free _ Hu), Hs. reflexivity.
  - change (lit ": []" ++ after_entry ((u, l) :: m) [])
      with ((lit ": []," ++ newline :: lit "  ")
            ++ dquote :: u ++ dquote :: lit ": " ++ songs_text l (after_entry m [])).
    rewrite !anywhere_dquote, (safe_id_free _ Hu), Hs. reflexivity.
Qed.

Lemma body_text_free (m : favmap) :
  safe_favs m = true -> anywhere unsafe_at (body_text m) = false.
Proof.
  destruct m as [|[u l] m]; intro H; [reflexivity|].
  simpl in H. apply andb_prop in H as [Hul Hm]. apply andb_prop in Hul as [Hu Hl].
  destruct (after_entry_free m Hm) as [H1 H2].
  change (body_text ((u, l) :: m))
    with ((lit "{" ++ newline :: lit "  ")
          ++ dquote :: u ++ dquote :: lit ": " ++ songs_text l (after_entry m [])).
  rewrite !anywhere_dquote, (safe_id_free _ Hu), (songs_text_free l _ Hl H1 H2). reflexivity.
Qed.

(** ** Decoding the stored text *)

Lemma scanstring_plain_cons (c : char) (s : pystr) :
  plain_char c = true -> scanstring (c :: s) = scan_cons c (scanstring s).
Proof.
  unfold plain_char. intro H.
  apply andb_prop in H as [H Hb]. apply andb_prop in H as [Hc Hq].
  apply negb_true_iff in Hb, Hq.
  assert (Hl : (c <=? 31)%N = false).
  { apply N.leb_gt. apply N.leb_le in Hc. lia. }
  cbn [scanstring]. now rewrite Hq, Hb, Hl.
Qed.

Lemma scanstring_plain (s rest : pystr) :
  forallb plain_char s = true -> scanstring (s ++ dquote :: rest) = Scanned s rest.
Proof.
  induction s as [|c s IH]; intro H; [reflexivity|].
  simpl in H. apply andb_prop in H as [Hc Hs].
  change ((c :: s) ++ dquote :: rest) with (c :: (s ++ dquote :: rest)).
  now rewrite (scanstring_plain_cons _ _ Hc), (IH Hs).
Qed.

Lemma scan_once_string (f : nat) (s rest : pystr) :
  forallb plain_char s = true ->
  scan_once (S f) (dquote :: s ++ dquote :: rest) = Scanned (JStr s) rest.
Proof.
  intro H. cbn [scan_once]. change (N.eqb dquote dquote) with true. cbn iota.
  now rewrite (scanstring_plain _ _ H).
Qed.

Lemma parse_array_loop_songs (f : nat) (l : list pystr) :
  forall (s : pystr) (acc : list json) (n : nat) (rest : pystr),
    length l < n ->
    forallb safe_id (s :: l) = true ->
    parse_array_loop (scan_once (S f)) n acc (dquote :: s ++ dquote :: after_song l rest)
    = Scanned (JArr (acc ++ map JStr (s :: l))) rest.
Proof.
  induction l as [|s' l IH]; intros s acc n rest Hn Hs;
    (destruct n as [|n]; [simpl in Hn; lia|]);
    simpl in Hs; apply andb_prop in Hs as [Hs Hl];
    cbn [parse_array_loop]; rewrite (scan_once_string _ _ _ (safe_id_plain _ Hs)).
  - reflexivity.
  - change (skip_ws (after_song (s' :: l) rest))
      with (44%N :: 32%N :: dquote :: s' ++ dquote :: after_song l rest).
    cbn iota. change (N.eqb 44 93) with false. change (N.eqb 44 44) with true. cbn iota.
    change (skip_ws (32%N :: dquote :: s' ++ dquote :: after_song l rest))
      with (dquote :: s' ++ dquote :: after_song l rest).
    rewrite IH; [|simpl in Hn; lia|exact Hl].
    now rewrite <- app_assoc.
Qed.

Lemma scan_once_songs (f : nat) (l : list pystr) (rest : pystr) :
  length l <= S f ->
  forallb safe_id l = true ->
  scan_once (S (S f)) (songs_text l rest) = Scanned (JArr (map JStr l)) rest.
Proof.
  intros Hn Hl. destruct l as [|s l]; [reflexivity|].
  change (scan_once (S (S f)) (songs_text (s :: l) rest))
    with (parse_array_loop (scan_once (S f)) (S f) []
            (dquote :: s ++ dquote :: after_song l rest)).
  rewrite parse_array_loop_songs; [reflexivity | simpl in Hn; lia | exact Hl].
Qed.

Lemma skip_ws_songs (l : list pystr) (rest : pystr) :
  skip_ws (songs_text l rest) = songs_text l rest.
Proof. now destruct l. Qed.

Lemma skip_ws_colon (x : pystr) : skip_ws (lit ": " ++ x) = 58%N :: 32%N :: x.
Proof. reflexivity. Qed.

Lemma skip_ws_space (x : pystr) : skip_ws (32%N :: x) = skip_ws x.
Proof. reflexivity. Qed.

Lemma dict_set_fresh {V} (d : dict V) (k : pystr) (v : V) :
  ~ In k (map fst d) -> dict_set d k v = d ++ [(k, v)].
Proof.
  induction d as [|[k' v'] d IH]; simpl; intro H; [reflexivity|].
  destruct (str_eqb k' k) eqn:E.
  - apply str_eqb_eq in E. exfalso. apply H. now left.
  - rewrite IH; [reflexivity|]. intro Hin. apply H. now right.
Qed.

Lemma parse_object_loop_entries (f : nat) (m : favmap) :
  forall (u : pystr) (l : list pystr) (d : dict json) (n : nat) (rest : pystr),
    length m < n ->
    (forall kv, In kv ((u, l) :: m) -> length (snd kv) <= S f) ->
    safe_favs ((u, l) :: m) = true ->
    NoDup (map fst d ++ map fst ((u, l) :: m)) ->
    parse_object_loop (scan_once (S (S f))) n d (entry_text u l (after_entry m rest))
    = Scanned (JObj (d ++ json_of_favs ((u, l) :: m))) rest.
Proof.
  induction m as [|[u' l'] m IH]; intros u l d n rest Hn Hf Hs Hd;
    (destruct n as [|n]; [simpl in Hn; lia|]);
    simpl in Hs; apply andb_prop in Hs as [Hul Hm]; apply andb_prop in Hul as [Hu Hl];
    unfold entry_text; cbn [parse_object_loop];
    change (N.eqb dquote dquote) with true; cbn iota;
    rewrite (scanstring_plain _ _ (safe_id_plain _ Hu));
    rewrite skip_ws_colon;
    cbn iota; change (N.eqb 58 58) with true; cbn iota;
    rewrite skip_ws_space, skip_ws_songs, scan_once_songs
      by (try exact Hl; apply (Hf (u, l)); now left);
    rewrite dict_set_fresh
      by (intro Hin; apply NoDup_remove_2 in Hd; apply Hd, in_or_app; now left).
  - reflexivity.
  - change (skip_ws (after_entry ((u', l') :: m) rest))
      with (44%N :: newline :: 32%N :: 32%N :: entry_text u' l' (after_entry m rest)).
    cbn iota. change (N.eqb 44 125) with false. change (N.eqb 44 44) with true. cbn iota.
    change (skip_ws (newline :: 32%N :: 32%N :: entry_text u' l' (after_entry m rest)))
      with (entry_text u' l' (after_entry m rest)).
    rewrite IH.
    + now rewrite <- app_assoc.
    + simpl in Hn. lia.
    + intros kv Hkv. apply Hf. now right.
    + exact Hm.
    + rewrite map_app, <- app_assoc. exact Hd.
Qed.

Lemma length_after_song (l : list pystr) (rest : pystr) :
  length l + length rest <= length (after_song l rest).
Proof.
  induction l as [|s l IH]; simpl; [lia|].
  rewrite length_app. simpl. lia.
Qed.

Lemma length_songs_text (l : list pystr) (rest : pystr) :
  length l + length rest <= length (songs_text l rest).
Proof.
  destruct l as [|s l]; simpl; [lia|].
  rewrite length_app. simpl. pose proof (length_after_song l rest). lia.
Qed.

Lemma length_entry_text (u : pystr) (l : list pystr) (rest : pystr) :
  length l + length rest + 1 <= length (entry_text u l rest).
Proof.
  unfold entry_text. cbn [length]. rewrite length_app.
  change (length (dquote :: lit ": " ++ songs_text l rest))
    with (S (S (S (length (songs_text l rest))))).
  pose proof (length_songs_text l rest). lia.
Qed.

Lemma length_after_entry (m : favmap) (rest : pystr) :
  length m <= length (after_entry m rest)
  /\ forall kv, In kv m -> length (snd kv) <= length (after_entry m rest).
Proof.
  induction m as [|[u l] m [IH1 IH2]]; [split; [simpl; lia | intros kv []]|].
  pose proof (length_entry_text u l (after_entry m rest)) as H.
  change (after_entry ((u, l) :: m) rest)
    with (44%N :: newline :: 32%N :: 32%N :: entry_text u l (after_entry m rest)).
  cbn [length]. split; [lia|].
  intros kv [<- | Hin]; cbn [snd]; [lia|].
  specialize (IH2 kv Hin). lia.
Qed.

Lemma json_loads_body_text (m : favmap) :
  safe_favs m = true ->
  NoDup (map fst m) ->
  json_loads (body_text m) = Decoded (JObj (json_of_favs m)).
Proof.
  intros Hs Hd. destruct m as [|[u l] m]; [reflexivity|].
  unfold json_loads.
  change (body_text ((u, l) :: m))
    with (123%N :: newline :: 32%N :: 32%N :: entry_text u l (after_entry m [])).
  change (startswith [65279%N] (123%N :: newline :: 32%N :: 32%N
                                  :: entry_text u l (after_entry m []))) with false.
  cbn iota. cbn [length].
  change (scan_once _ _)
    with (parse_object_loop
            (scan_once (S (S (S (S (length (entry_text u l (after_entry m []))))))))
            (S (S (S (S (length (entry_text u l (after_entry m [])))))))
            [] (entry_text u l (after_entry m []))).
  pose proof (length_entry_text u l (after_entry m [])) as He.
  destruct (length_after_entry m []) as [Hm1 Hm2].
  rewrite parse_object_loop_entries.
  - reflexivity.
  - lia.
  - intros kv [<- | Hin]; cbn [snd]; [lia|]. specialize (Hm2 kv Hin). lia.
  - exact Hs.
  - exact Hd.
Qed.

(** ** The parser on the stored text *)

Lemma anywhere_suffix (P : pystr -> bool) (a t : pystr) :
  anywhere P (a ++ t) = false -> anywhere P t = false.
Proof.
  induction a as [|c a IH]; intro H; [exact H|].
  apply IH. change ((c :: a) ++ t) with (c :: (a ++ t)) in H.
  cbn [anywhere] in H. now apply orb_false_elim in H as [_ H].
Qed.

Lemma unsafe_at_false (t : pystr) :
  unsafe_at t = false ->
  startswith [squote] t = false /\ startswith (lit "//") t = false
  /\ startswith (lit "};") t = false /\ comma_closer_at t = false.
Proof.
  unfold unsafe_at. intro H.
  apply orb_false_elim in H as [H H4]. apply orb_false_elim in H as [H H3].
  apply orb_false_elim in H as [H1 H2]. auto.
Qed.

Lemma replace_squote_free (s : pystr) :
  anywhere unsafe_at s = false -> replace_char squote dquote s = s.
Proof.
  induction s as [|c s IH]; intro H; [reflexivity|].
  cbn [anywhere] in H. apply orb_false_elim in H as [Hc Hs].
  apply unsafe_at_false in Hc as (Hq & _).
  unfold replace_char. cbn [map]. fold (replace_char squote dquote s). rewrite (IH Hs).
  cbn [startswith] in Hq. rewrite andb_true_r, N.eqb_sym in Hq. now rewrite Hq.
Qed.

Lemma sub_line_comment_free (s : pystr) :
  anywhere unsafe_at s = false -> sub re_line_comment (fun _ => []) s = s.
Proof.
  intro H. apply sub_no_match. intros a t ->.
  apply match_line_comment_none. now apply anywhere_false, unsafe_at_false in H.
Qed.

Lemma sub_trailing_comma_free (s : pystr) :
  anywhere unsafe_at s = false -> sub re_trailing_comma (fun m' => group 1 m') s = s.
Proof.
  intro H. apply sub_no_match. intros a t ->.
  apply match_trailing_comma_none. now apply anywhere_false, unsafe_at_false in H.
Qed.

Lemma anywhere_brace_semicolon (s : pystr) :
  anywhere unsafe_at s = false -> anywhere (startswith (lit "};")) s = false.
Proof.
  induction s as [|c s IH]; intro H.
  - reflexivity.
  - cbn [anywhere] in *. apply orb_false_elim in H as [Hc Hs].
    apply unsafe_at_false in Hc as (_ & _ & Hb & _). now rewrite Hb, (IH Hs).
Qed.

Lemma body_text_braces (m : favmap) :
  exists inner, body_text m = lit "{" ++ inner ++ lit "}".
Proof.
  destruct m as [|[u l] m].
  - now exists [newline].
  - destruct (lines_shape m u l []) as (y & _ & Hy).
    exists (newline :: y ++ lit "]" ++ [newline]).
    unfold body_text.
    change (lit "{" ++ newline :: lit "  " ++ entry_text u l (after_entry m []))
      with (lit "{" ++ newline :: (lit "  " ++ entry_text u l (after_entry m []))).
    rewrite Hy. app_norm. reflexivity.
Qed.

Lemma parse_module_text (now : datetime) (m : favmap) :
  safe_favs m = true ->
  NoDup (map fst m) ->
  parse_favorites (module_text now m) = (JObj (json_of_favs m), None).
Proof.
  intros Hs Hd.
  pose proof (body_text_free m Hs) as Hfree.
  destruct (body_text_braces m) as [inner Hb].
  assert (Hin : anywhere (startswith (lit "};")) (inner ++ lit "}") = false).
  { apply anywhere_brace_semicolon. rewrite Hb in Hfree.
    now apply (anywhere_suffix unsafe_at (lit "{")). }
  unfold parse_favorites, module_text.
  replace (lit "export const favorites = " ++ body_text m ++ lit ";" ++ [newline])
    with (lit "export const favorites = {" ++ inner ++ lit "};" ++ [newline])
    by (rewrite Hb; app_norm; reflexivity).
  rewrite (search_module_text now inner [newline] Hin).
  change (group 1 [lit "favorites = {" ++ inner ++ lit "};"; lit "{" ++ inner ++ lit "}"])
    with (lit "{" ++ inner ++ lit "}").
  rewrite <- Hb. cbv zeta.
  rewrite (sub_line_comment_free _ Hfree), (replace_squote_free _ Hfree),
    (sub_trailing_comma_free _ Hfree), (json_loads_body_text m Hs Hd).
  reflexivity.
Qed.

(** ** Safe ids *)

Lemma anywhere_orb (P Q : pystr -> bool) (s : pystr) :
  anywhere (fun t => P t || Q t) s = anywhere P s || anywhere Q s.
Proof.
  induction s as [|c s IH]; cbn [anywhere].
  - now rewrite !orb_false_r.
  - rewrite IH. destruct (P (c :: s)), (Q (c :: s)), (anywhere P s), (anywhere Q s); reflexivity.
Qed.

Lemma anywhere_char (x : char) (s : pystr) :
  anywhere (startswith [x]) s = existsb (fun c => N.eqb c x) s.
Proof.
  induction s as [|c s IH]; [reflexivity|].
  change (anywhere (startswith [x]) (c :: s))
    with ((N.eqb x c && true) || anywhere (startswith [x]) s).
  cbn [existsb]. now rewrite IH, andb_true_r, N.eqb_sym.
Qed.

Lemma forallb_negb_existsb {A} (p : A -> bool) (l : list A) :
  forallb (fun x => negb (p x)) l = negb (existsb p l).
Proof.
  induction l as [|x l IH]; [reflexivity|].
  simpl. rewrite IH. now destruct (p x).
Qed.

Lemma forallb_andb {A} (p q : A -> bool) (l : list A) :
  forallb (fun x => p x && q x) l = forallb p l && forallb q l.
Proof.
  induction l as [|x l IH]; [reflexivity|].
  simpl. rewrite IH. destruct (p x), (q x), (forallb p l); reflexivity.
Qed.

(** A safe id is one the claim allows (no quote of either kind, no
    backslash, no two slashes, no closing brace with a semicolon) that has
    moreover no control character and no comma before a closer. *)
Lemma safe_id_spec (s : pystr) :
  safe_id s
  = quote_free s && forallb (fun c => (32 <=? c)%N) s && negb (anywhere comma_closer_at s).
Proof.
  unfold safe_id, quote_free, plain_char, contains.
  change unsafe_at
    with (fun t => ((startswith [squote] t || startswith (lit "//") t)
                    || startswith (lit "};") t) || comma_closer_at t).
  rewrite !anywhere_orb, anywhere_char, !forallb_andb, !forallb_negb_existsb.
  unfold char. change (fun c : N => (32 <=? c)%N) with (N.leb 32).
  generalize (forallb (N.leb 32) s) (existsb (fun x : N => (x =? dquote)%N) s)
    (existsb (fun x : N => (x =? backslash)%N) s)
    (existsb (fun x : N => (x =? squote)%N) s)
    (anywhere (startswith (lit "//")) s) (anywhere (startswith (lit "};")) s)
    (anywhere comma_closer_at s).
  intros [] [] [] [] [] [] []; reflexivity.
Qed.

(** ** Round trip of the stored text *)

Lemma get_all_favorites_module_text (g : github) (now : datetime) (m : favmap) :
  repo g = true ->
  safe_favs m = true ->
  NoDup (map fst m) ->
  get_all_favorites (set_favorites_file g (module_text now m)) = (JObj (json_of_favs m), None).
Proof.
  intros Hr Hs Hd. unfold get_all_favorites, set_favorites_file. cbn [repo favorites_file].
  rewrite Hr. cbn [negb]. now apply parse_module_text.
Qed.

Lemma roundtrip_refuted :
  (quote_free_favs comma_bracket_favs = true
   /\ NoDup (map fst comma_bracket_favs)
   /\ exists js,
       js_content str_of_string (json_of_favs comma_bracket_favs) = Val js
       /\ get_all_favorites (store_with (new_content noon js))
          = (JObj [(lit "u1", JArr [JStr (lit "a]b")])], None)
       /\ get_all_favorites (store_with (new_content noon js))
          <> (JObj (json_of_favs comma_bracket_favs), None))
  /\ (quote_free_favs tab_favs = true
      /\ NoDup (map fst tab_favs)
      /\ exists js,
          js_content str_of_string (json_of_favs tab_favs) = Val js
          /\ get_all_favorites (store_with (new_content noon js)) = (JObj [], None)
          /\ get_all_favorites (store_with (new_content noon js))
             <> (JObj (json_of_favs tab_favs), None)).
Proof.
  split; (split; [reflexivity|]); (split; [repeat constructor; intros []|]);
    eexists; (split; [vm_compute; reflexivity|]);
    (split; [vm_compute; reflexivity | vm_compute; discriminate]).
Qed.

Section RoundTrip.
Variable py_str : json -> pystr.
Hypothesis py_str_string : forall s, py_str (JStr s) = s.

(** C10 (as amended): for a mapping with distinct user ids whose ids are
    all safe, the serializer produces a text, and the parser reads that
    text back as exactly the mapping, with no error. *)
Theorem serializer_parser_roundtrip (g : github) (now : datetime) (m : favmap) :
  repo g = true ->
  NoDup (map fst m) ->
  safe_favs m = true ->
  exists js,
    js_content py_str (json_of_favs m) = Val js
    /\ get_all_favorites (set_favorites_file g (new_content now js))
       = (JObj (json_of_favs m), None).
Proof.
  intros Hr Hd Hs. eexists. split; [apply (js_content_favs py_str py_str_string)|].
  now apply get_all_favorites_module_text.
Qed.

End RoundTrip.

Lemma serializer_parser_roundtrip_witness :
  exists js,
    js_content str_of_string (json_of_favs [(lit "u1", [lit "a"; lit "b"]); (lit "u2", [])])
    = Val js
    /\ get_all_favorites (set_favorites_file (store_with []) (new_content noon js))
       = (JObj (json_of_favs [(lit "u1", [lit "a"; lit "b"]); (lit "u2", [])]), None).
Proof.
  apply (serializer_parser_roundtrip str_of_string (fun s => eq_refl) (store_with []) noon
           [(lit "u1", [lit "a"; lit "b"]); (lit "u2", [])]).
  - reflexivity.
  - repeat constructor; simpl; intuition discriminate.
  - reflexivity.
Defined.

(** ** Add followed by remove *)

Lemma json_of_favs_set (m : favmap) (k : pystr) (l : list pystr) :
  dict_set (json_of_favs m) k (JArr (map JStr l)) = json_of_favs (dict_set m k l).
Proof.
  induction m as [|[k' l'] m IH]; [reflexivity|].
  cbn [json_of_favs map dict_set fst snd]. fold (json_of_favs m).
  destruct (str_eqb k' k); [reflexivity|].
  cbn [json_of_favs map fst snd]. fold (json_of_favs m) (json_of_favs (dict_set m k l)).
  now rewrite IH.
Qed.

Lemma json_of_favs_get (m : favmap) (k : pystr) :
  dict_get_default (json_of_favs m) k (JArr []) = JArr (map JStr (favs_of m k)).
Proof.
  unfold dict_get_default, favs_of, dict_get_default.
  induction m as [|[k' l'] m IH]; [reflexivity|].
  cbn [json_of_favs map dict_get fst snd]. fold (json_of_favs m).
  now destruct (str_eqb k' k).
Qed.

Lemma favs_of_set (m : favmap) (k : pystr) (l : list pystr) :
  favs_of (dict_set m k l) k = l.
Proof. unfold favs_of, dict_get_default. now rewrite dict_get_set_same. Qed.

Lemma safe_favs_set (m : favmap) (k : pystr) (l : list pystr) :
  safe_favs m = true -> safe_id k = true -> forallb safe_id l = true ->
  safe_favs (dict_set m k l) = true.
Proof.
  intros Hm Hk Hl. induction m as [|[k' l'] m IH].
  - simpl. now rewrite Hk, Hl.
  - simpl in Hm. apply andb_prop in Hm as [Hkl Hm]. apply andb_prop in Hkl as [Hk' Hl'].
    cbn [dict_set]. destruct (str_eqb k' k); simpl.
    + now rewrite Hk', Hl, Hm.
    + now rewrite Hk', Hl', (IH Hm).
Qed.

Lemma safe_favs_of (m : favmap) (k : pystr) :
  safe_favs m = true -> forallb safe_id (favs_of m k) = true.
Proof.
  unfold favs_of, dict_get_default. induction m as [|[k' l'] m IH]; intro H; [reflexivity|].
  simpl in H. apply andb_prop in H as [Hkl Hm]. apply andb_prop in Hkl as [_ Hl'].
  cbn [dict_get]. destruct (str_eqb k' k); [exact Hl' | now apply IH].
Qed.

Lemma existsb_is_str (x : pystr) (l : list pystr) :
  existsb (is_str x) (map JStr l) = existsb (str_eqb x) l.
Proof. induction l as [|s l IH]; simpl; [reflexivity | now rewrite IH]. Qed.

Lemma remove_first_appended (x : pystr) (l : list pystr) :
  existsb (str_eqb x) l = false ->
  remove_first x (map JStr (l ++ [x])) = Some (map JStr l).
Proof.
  induction l as [|s l IH]; simpl; intro H.
  - now rewrite str_eqb_refl.
  - apply orb_false_elim in H as [Hs Hl]. now rewrite Hs, (IH Hl).
Qed.

Lemma get_all_favorites_repo (g : github) (v : json) :
  get_all_favorites g = (v, None) ->
  repo g = true /\ exists text, favorites_file g = Content text.
Proof.
  unfold get_all_favorites. destruct (repo g); cbn [negb]; [|discriminate].
  destruct (favorites_file g) as [msg | msg | text]; try discriminate.
  intros _. split; [reflexivity | now exists text].
Qed.

Lemma get_user_favorites_favs (g : github) (m : favmap) (user_id : pystr) :
  get_all_favorites g = (JObj (json_of_favs m), None) ->
  get_user_favorites g user_id = Val (JArr (map JStr (favs_of m user_id)), None).
Proof.
  intro H. unfold get_user_favorites. rewrite H. cbn [truthy py_get bind].
  now rewrite json_of_favs_get.
Qed.

Section AddRemove.
Variable py_str : json -> pystr.
Hypothesis py_str_string : forall s, py_str (JStr s) = s.

Lemma update_user_favorites_favs (now : datetime) (g : github) (m : favmap)
  (user_id : pystr) (l : list pystr) :
  get_all_favorites g = (JObj (json_of_favs m), None) ->
  update_error g = None ->
  update_user_favorites py_str now g user_id (map JStr l)
  = ((true, None), set_favorites_file g (module_text now (dict_set m user_id l))).
Proof.
  intros Hg He. destruct (get_all_favorites_repo g _ Hg) as (Hr & text & Hf).
  unfold update_user_favorites. rewrite Hr, Hf, Hg, He. cbn [negb truthy andb py_setitem].
  rewrite bind_val, json_of_favs_set, (js_content_favs py_str py_str_string).
  reflexivity.
Qed.

Lemma add_favorite_absent (now : datetime) (g : github) (m : favmap)
  (user_id song_id : pystr) (req : request) :
  get_all_favorites g = (JObj (json_of_favs m), None) ->
  update_error g = None ->
  request_song_id req = Some song_id ->
  song_id <> [] ->
  existsb (str_eqb song_id) (favs_of m user_id) = false ->
  add_favorite py_str now g user_id req
  = (jsonify [(lit "message", JStr (lit "Added to favorites"));
              (lit "user_id", JStr user_id);
              (lit "count", JInt (Z.of_nat (length (map JStr (favs_of m user_id ++ [song_id])))));
              (lit "favorites", JArr (map JStr (favs_of m user_id ++ [song_id])))] 200,
     set_favorites_file g
       (module_text now (dict_set m user_id (favs_of m user_id ++ [song_id])))).
Proof.
  intros Hg He Hreq Hne Hout. unfold add_favorite. rewrite Hreq.
  destruct song_id as [|c song_id]; [contradiction|].
  rewrite (get_user_favorites_favs g m user_id Hg). cbn [truthy py_contains].
  rewrite existsb_is_str, Hout. cbn [py_append].
  change [JStr (c :: song_id)] with (map JStr [c :: song_id]). rewrite <- map_app.
  now rewrite (update_user_favorites_favs now g m user_id _ Hg He).
Qed.

Lemma remove_favorite_last (now : datetime) (g : github) (m : favmap)
  (user_id song_id : pystr) (req : request) (l : list pystr) :
  get_all_favorites g = (JObj (json_of_favs m), None) ->
  update_error g = None ->
  request_song_id req = Some song_id ->
  song_id <> [] ->
  favs_of m user_id = l ++ [song_id] ->
  existsb (str_eqb song_id) l = false ->
  remove_favorite py_str now g user_id req
  = (jsonify [(lit "message", JStr (lit "Removed from favorites"));
              (lit "user_id", JStr user_id);
              (lit "count", JInt (Z.of_nat (length (map JStr l))));
              (lit "favorites", JArr (map JStr l))] 200,
     set_favorites_file g (module_text now (dict_set m user_id l))).
Proof.
  intros Hg He Hreq Hne Hl Hout. unfold remove_favorite. rewrite Hreq.
  destruct song_id as [|c song_id]; [contradiction|].
  rewrite (get_user_favorites_favs g m user_id Hg), Hl. cbn [truthy py_contains].
  rewrite existsb_is_str, existsb_app. cbn [existsb]. rewrite str_eqb_refl, orb_true_r.
  cbn [orb py_remove]. rewrite (remove_first_appended _ _ Hout).
  now rewrite (update_user_favorites_favs now g m user_id _ Hg He).
Qed.

(** C2 (as amended): when the store holds a mapping with distinct user
    ids and safe ids, the writes succeed, the user id and the song id are
    safe, and the song id is not among the user's favorites, then the add
    and the remove that follows both answer 200, the song is the last
    favorite in between, and afterwards the user's favorites read as they
    did before the add. *)
Theorem add_then_remove_restores (now1 now2 : datetime) (g : github) (m : favmap)
  (user_id song_id : pystr) (req : request) :
  get_all_favorites g = (JObj (json_of_favs m), None) ->
  NoDup (map fst m) ->
  safe_favs m = true ->
  update_error g = None ->
  safe_id user_id = true ->
  safe_id song_id = true ->
  request_song_id req = Some song_id ->
  song_id <> [] ->
  existsb (str_eqb song_id) (favs_of m user_id) = false ->
  let added := add_favorite py_str now1 g user_id req in
  let removed := remove_favorite py_str now2 (snd added) user_id req in
  status (fst added) = 200
  /\ status (fst removed) = 200
  /\ get_user_favorites (snd added) user_id
     = Val (JArr (map JStr (favs_of m user_id ++ [song_id])), None)
  /\ get_user_favorites (snd removed) user_id = get_user_favorites g user_id.
Proof.
  intros Hg Hd Hs He Hu Hsong Hreq Hne Hout added removed.
  destruct (get_all_favorites_repo g _ Hg) as (Hr & _).
  set (l := favs_of m user_id) in *.
  set (m1 := dict_set m user_id (l ++ [song_id])).
  assert (Hl : forallb safe_id l = true) by apply (safe_favs_of m user_id Hs).
  assert (Hs1 : safe_favs m1 = true).
  { apply safe_favs_set; [exact Hs | exact Hu|].
    rewrite forallb_app, Hl. simpl. now rewrite Hsong. }
  assert (Hd1 : NoDup (map fst m1)) by now apply dict_set_NoDup.
  assert (Hadd : added = (jsonify [(lit "message", JStr (lit "Added to favorites"));
                                   (lit "user_id", JStr user_id);
                                   (lit "count",
                                    JInt (Z.of_nat (length (map JStr (l ++ [song_id])))));
                                   (lit "favorites", JArr (map JStr (l ++ [song_id])))] 200,
                          set_favorites_file g (module_text now1 m1))).
  { apply (add_favorite_absent now1 g m user_id song_id req Hg He Hreq Hne Hout). }
  assert (Hg1 : get_all_favorites (snd added) = (JObj (json_of_favs m1), None)).
  { rewrite Hadd. cbn [snd]. now apply get_all_favorites_module_text. }
  set (m2 := dict_set m1 user_id l).
  assert (Hrem : removed
                 = (jsonify [(lit "message", JStr (lit "Removed from favorites"));
                             (lit "user_id", JStr user_id);
                             (lit "count", JInt (Z.of_nat (length (map JStr l))));
                             (lit "favorites", JArr (map JStr l))] 200,
                    set_favorites_file (snd added) (module_text now2 m2))).
  { apply (remove_favorite_last now2 (snd added) m1 user_id song_id req l Hg1).
    - rewrite Hadd. exact He.
    - exact Hreq.
    - exact Hne.
    - apply favs_of_set.
    - exact Hout. }
  assert (Hg2 : get_all_favorites (snd removed) = (JObj (json_of_favs m2), None)).
  { rewrite Hrem. cbn [snd]. apply get_all_favorites_module_text.
    - rewrite Hadd. exact Hr.
    - now apply safe_favs_set.
    - now apply dict_set_NoDup. }
  split; [now rewrite Hadd|]. split; [now rewrite Hrem|]. split.
  - rewrite (get_user_favorites_favs _ m1 user_id Hg1). unfold m1. now rewrite favs_of_set.
  - rewrite (get_user_favorites_favs _ m2 user_id Hg2), (get_user_favorites_favs g m user_id Hg).
    unfold m2. now rewrite favs_of_set.
Qed.

End AddRemove.

Lemma add_then_remove_restores_witness :
  let added := add_favorite str_of_string noon (store_with example_text_no_comment)
                 (lit "u2") (GET [(lit "song_id", lit "z")]) in
  let removed := remove_favorite str_of_string noon (snd added)
                   (lit "u2") (GET [(lit "song_id", lit "z")]) in
  status (fst added) = 200
  /\ status (fst removed) = 200
  /\ get_user_favorites (snd added) (lit "u2")
     = Val (JArr (map JStr (favs_of example_favs (lit "u2") ++ [lit "z"])), None)
  /\ get_user_favorites (snd removed) (lit "u2")
     = get_user_favorites (store_with example_text_no_comment) (lit "u2").
Proof.
  apply (add_then_remove_restores str_of_string (fun s => eq_refl) noon noon
           (store_with example_text_no_comment) example_favs (lit "u2") (lit "z")
           (GET [(lit "song_id", lit "z")])).
  - vm_compute. reflexivity.
  - repeat constructor; simpl; intuition discriminate.
  - reflexivity.
  - reflexivity.
  - reflexivity.
  - reflexivity.
  - reflexivity.
  - discriminate.
  - reflexivity.
Defined.

Lemma add_then_remove_refuted :
  (let g := store_with (lit "favorites = {'u1': ['a']};") in
   let req := GET [(lit "song_id", lit "a")] in
   let added := add_favorite str_of_string noon g (lit "u1") req in
   let removed := remove_favorite str_of_string noon (snd added) (lit "u1") req in
   status (fst added) = 200
   /\ status (fst removed) = 200
   /\ get_user_favorites g (lit "u1") = Val (JArr [JStr (lit "a")], None)
   /\ get_user_favorites (snd removed) (lit "u1") = Val (JArr [], None))
  /\ (let g := store_with (lit "favorites = {'u1': ['x']};") in
      let req := GET [(lit "song_id", lit "a,]b")] in
      let added := add_favorite str_of_string noon g (lit "u1") req in
      let removed := remove_favorite str_of_string noon (snd added) (lit "u1") req in
      status (fst added) = 200
      /\ status (fst removed) = 200
      /\ get_user_favorites g (lit "u1") = Val (JArr [JStr (lit "x")], None)
      /\ get_user_favorites (snd removed) (lit "u1")
         = Val (JArr [JStr (lit "x"); JStr (lit "a]b")], None)).
Proof. split; vm_compute; repeat split; reflexivity. Qed.

(* ================================================================== *)
(** * Further properties *)

(** ** What the parser returns for any text *)

Lemma star_lazy_some {A} (p : char -> bool) (k : pystr -> option A) (s : pystr) (r : A) :
  star_lazy p k s = Some r ->
  exists a t, s = a ++ t /\ forallb p a = true /\ k t = Some r.
Proof.
  induction s as [|c s IH]; cbn [star_lazy]; intro H.
  - destruct (k []) eqn:E; [|discriminate]. injection H as ->. now exists [], [].
  - destruct (k (c :: s)) eqn:E.
    + injection H as ->. now exists [], (c :: s).
    + destruct (p c) eqn:Hc; [|discriminate].
      destruct (IH H) as (a & t & -> & Ha & Hk).
      exists (c :: a), t. simpl. now rewrite Hc, Ha.
Qed.

(** A pattern without groups hands the groups on unchanged. *)
Lemma rmatch_no_group {A} (r : regex) :
  no_group r = true ->
  forall caps s (k : list pystr -> pystr -> option A) x,
    rmatch r caps s k = Some x -> exists s', k caps s' = Some x.
Proof.
  induction r as [|p|r1 IH1 r2 IH2|greedy p|r IH]; intros Hg caps s k x H; simpl in Hg.
  - now exists s.
  - cbn [rmatch] in H. destruct s as [|c s]; [discriminate|].
    destruct (p c); [now exists s | discriminate].
  - apply andb_prop in Hg as [Hg1 Hg2]. cbn [rmatch] in H.
    apply (IH1 Hg1) in H as [s1 H]. now apply (IH2 Hg2) in H.
  - cbn [rmatch] in H. destruct greedy.
    + apply star_greedy_some in H as (a & t & _ & _ & H). now exists t.
    + apply star_lazy_some in H as (a & t & _ & _ & H). now exists t.
  - discriminate.
Qed.

Lemma rmatch_braces {A} (caps : list pystr) (s : pystr)
  (k : list pystr -> pystr -> option A) (x : A) :
  rmatch (Grp (Seqs [Chr 123; Star false any_char; Chr 125])) caps s k = Some x ->
  exists w s', k (caps ++ [123%N :: w]) s' = Some x.
Proof.
  cbn -[firstn length Nat.sub star_lazy N.eqb]. intro H.
  destruct s as [|c s0]; [discriminate|].
  destruct (123 =? c)%N eqn:Ec; [|discriminate]. apply N.eqb_eq in Ec. subst c.
  apply star_lazy_some in H as (a & t & -> & _ & H).
  destruct t as [|d s2]; [discriminate|].
  destruct (125 =? d)%N eqn:Ed; [|discriminate]. apply N.eqb_eq in Ed. subst d.
  rewrite (firstn_suffix _ s2 (123%N :: a ++ [125%N])) in H
    by (app_norm; reflexivity).
  now exists (a ++ [125%N]), s2.
Qed.

Lemma rmatch_seq_no_group {A} (r1 r2 : regex) (caps : list pystr) (s : pystr)
  (k : list pystr -> pystr -> option A) (x : A) :
  no_group r1 = true ->
  rmatch (Seq r1 r2) caps s k = Some x -> exists s', rmatch r2 caps s' k = Some x.
Proof.
  intros Hg H.
  change (rmatch r1 caps s (fun caps' s' => rmatch r2 caps' s' k) = Some x) in H.
  now apply (rmatch_no_group r1 Hg) in H.
Qed.

Lemma rmatch_seq_braces {A} (r2 : regex) (caps : list pystr) (s : pystr)
  (k : list pystr -> pystr -> option A) (x : A) :
  rmatch (Seq (Grp (Seqs [Chr 123; Star false any_char; Chr 125])) r2) caps s k = Some x ->
  exists w s', rmatch r2 (caps ++ [123%N :: w]) s' k = Some x.
Proof.
  intro H.
  change (rmatch (Grp (Seqs [Chr 123; Star false any_char; Chr 125])) caps s
            (fun caps' s' => rmatch r2 caps' s' k) = Some x) in H.
  now apply rmatch_braces in H.
Qed.

(** The group of a match of the favorites pattern starts with a brace. *)
Lemma match_favorites_group (s : pystr) (groups : list pystr) (rest : pystr) :
  match_at re_favorites s = Some (groups, rest) ->
  exists w, group 1 groups = 123%N :: w.
Proof.
  unfold match_at, re_favorites. cbn [Seqs]. intro H.
  apply rmatch_seq_no_group in H as [s1 H]; [|reflexivity].
  apply rmatch_seq_no_group in H as [s2 H]; [|reflexivity].
  apply rmatch_seq_no_group in H as [s3 H]; [|reflexivity].
  apply rmatch_seq_no_group in H as [s4 H]; [|reflexivity].
  apply rmatch_seq_braces in H as (w & s5 & H).
  apply rmatch_seq_no_group in H as [s6 H]; [|reflexivity].
  cbn [rmatch] in H. injection H as <- _. now exists w.
Qed.

Lemma search_favorites_group (s : pystr) (groups : list pystr) :
  search re_favorites s = Some groups -> exists w, group 1 groups = 123%N :: w.
Proof.
  induction s as [|c s IH]; cbn [search]; intro H.
  - destruct (match_at re_favorites []) as [[gs r]|] eqn:E; [|discriminate].
    injection H as <-. now apply match_favorites_group in E.
  - destruct (match_at re_favorites (c :: s)) as [[gs r]|] eqn:E.
    + injection H as <-. now apply match_favorites_group in E.
    + now apply IH.
Qed.

Lemma parse_object_loop_object (scan_value : pystr -> scan json) (n : nat) :
  forall d s v r,
    NoDup (map fst d) ->
    parse_object_loop scan_value n d s = Scanned v r ->
    exists d', v = JObj d' /\ NoDup (map fst d').
Proof.
  induction n as [|n IH]; intros d s v r Hd H; [discriminate|].
  cbn [parse_object_loop] in H.
  destruct s as [|q s0]; [discriminate|].
  destruct (N.eqb q dquote); [|discriminate].
  destruct (scanstring s0) as [key s1| |]; try discriminate.
  destruct (skip_ws s1) as [|c1 s2]; [discriminate|].
  destruct (N.eqb c1 58); [|discriminate].
  destruct (scan_value (skip_ws s2)) as [x s3| |]; try discriminate.
  destruct (skip_ws s3) as [|c2 s4]; [discriminate|].
  destruct (N.eqb c2 125).
  - injection H as <- _. exists (dict_set d key x). split; [reflexivity|].
    now apply dict_set_NoDup.
  - destruct (N.eqb c2 44); [|discriminate].
    apply (IH _ _ _ _ (dict_set_NoDup d key x Hd) H).
Qed.

Lemma json_loads_brace (t : pystr) (v : json) :
  json_loads (123%N :: t) = Decoded v -> exists d, v = JObj d /\ NoDup (map fst d).
Proof.
  unfold json_loads.
  change (startswith [65279%N] (123%N :: t)) with false. cbn iota.
  change (skip_ws (123%N :: t)) with (123%N :: t).
  change (scan_once (S (length (123%N :: t))) (123%N :: t))
    with (parse_object (scan_once (length (123%N :: t))) (length (123%N :: t)) t).
  unfold parse_object.
  destruct (skip_ws t) as [|c s'].
  - discriminate.
  - destruct (N.eqb c 125).
    + destruct (skip_ws s'); [|discriminate]. intro H. injection H as <-.
      exists []. split; [reflexivity | constructor].
    + destruct (parse_object_loop _ _ [] (c :: s')) as [x r| |] eqn:E; try discriminate.
      destruct (skip_ws r); [|discriminate]. intro H. injection H as <-.
      apply (parse_object_loop_object _ _ [] _ _ _ (NoDup_nil _) E).
Qed.

Lemma sub_keeps_head (r : regex) (repl : list pystr -> pystr) (c : char) (s : pystr) :
  match_at r (c :: s) = None -> sub r repl (c :: s) = c :: sub r repl s.
Proof. unfold sub. cbn [sub_from]. now intros ->. Qed.

Lemma replace_squote_brace (x : pystr) :
  replace_char squote dquote (123%N :: x) = 123%N :: replace_char squote dquote x.
Proof. reflexivity. Qed.

Lemma parse_favorites_object (content : pystr) :
  exists d, fst (parse_favorites content) = JObj d /\ NoDup (map fst d).
Proof.
  unfold parse_favorites.
  destruct (search re_favorites content) as [m|] eqn:E;
    [|exists []; split; [reflexivity | constructor]].
  destruct (search_favorites_group _ _ E) as [w ->]. cbv zeta.
  rewrite (sub_keeps_head re_line_comment) by now apply match_line_comment_none.
  rewrite replace_squote_brace.
  rewrite (sub_keeps_head re_trailing_comma) by now apply match_trailing_comma_none.
  match goal with
  | |- context [json_loads ?a] => destruct (json_loads a) eqn:E'
  end.
  - now apply json_loads_brace in E'.
  - exists []. split; [reflexivity | constructor].
  - exists []. split; [reflexivity | constructor].
Qed.

Lemma get_all_favorites_shape (g : github) :
  exists d, fst (get_all_favorites g) = JObj d /\ NoDup (map fst d).
Proof.
  unfold get_all_favorites.
  destruct (repo g); cbn [negb]; [|exists []; split; [reflexivity | constructor]].
  destruct (favorites_file g) as [msg | msg | text];
    try (exists []; split; [reflexivity | constructor]).
  apply parse_favorites_object.
Qed.

(** X1: whatever the repository holds, [get_all_favorites] returns an object
    whose keys are distinct. *)
Theorem get_all_favorites_object (g : github) :
  exists d, fst (get_all_favorites g) = JObj d /\ NoDup (map fst d).
Proof.
  unfold get_all_favorites.
  destruct (repo g); cbn [negb]; [|exists []; split; [reflexivity | constructor]].
  destruct (favorites_file g) as [msg | msg | text];
    try (exists []; split; [reflexivity | constructor]).
  apply parse_favorites_object.
Qed.

(** X2: whatever the repository holds, [get_user_favorites] returns a pair and
    never raises. *)
Theorem get_user_favorites_total (g : github) (user_id : pystr) :
  exists favorites error, get_user_favorites g user_id = Val (favorites, error).
Proof.
  unfold get_user_favorites.
  destruct (get_all_favorites_shape g) as (d & Hd & _).
  destruct (get_all_favorites g) as [all_favs error]. cbn [fst] in Hd. subst all_favs.
  destruct (truthy error); cbn [py_get bind]; now eexists _, _.
Qed.



Lemma rmatch_lit {A} (p : pystr) :
  forall caps s (k : list pystr -> pystr -> option A) x,
    rmatch (Lit p) caps s k = Some x -> startswith p s = true.
Proof.
  induction p as [|c p IH]; intros caps s k x H; [reflexivity|].
  cbn [Lit rmatch Chr] in H. destruct s as [|d s]; [discriminate|].
  cbn [startswith]. destruct (N.eqb c d); [|discriminate].
  now apply IH in H.
Qed.

Lemma match_favorites_startswith (s : pystr) (x : list pystr * pystr) :
  match_at re_favorites s = Some x -> startswith (lit "favorites") s = true.
Proof.
  unfold match_at, re_favorites. cbn [Seqs]. intro H.
  change (rmatch (Lit (lit "favorites")) [] s
            (fun caps' s' =>
               rmatch (Seq (Star true is_space)
                         (Seq (Chr 61)
                            (Seq (Star true is_space)
                               (Seq (Grp (Seq (Chr 123)
                                            (Seq (Star false any_char) (Seq (Chr 125) Eps))))
                                  (Seq (Chr 59) Eps))))) caps' s'
                 (fun caps rest => Some (firstn (length s - length rest) s :: caps, rest)))
          = Some x) in H.
  now apply rmatch_lit in H.
Qed.

Lemma search_none (r : regex) (s : pystr) :
  (forall a t, s = a ++ t -> match_at r t = None) -> search r s = None.
Proof.
  induction s as [|c s IH]; intro H; cbn [search].
  - now rewrite (H [] [] eq_refl).
  - rewrite (H [] (c :: s) eq_refl). apply IH. intros a t ->. now apply (H (c :: a) t).
Qed.

(** X4: a file that does not hold the word favorites reads as the empty
    mapping, with no error. *)
Theorem favorites_absent_is_empty (g : github) (text : pystr) :
  repo g = true ->
  favorites_file g = Content text ->
  contains (lit "favorites") text = false ->
  get_all_favorites g = (JObj [], None).
Proof.
  intros Hr Hf Hc. unfold get_all_favorites, parse_favorites. rewrite Hr, Hf. cbn [negb].
  rewrite search_none; [reflexivity|].
  intros a t ->. destruct (match_at re_favorites t) as [x|] eqn:E; [|reflexivity].
  apply match_favorites_startswith in E.
  apply (anywhere_false _ a t) in Hc. congruence.
Qed.

Lemma favorites_absent_is_empty_witness :
  get_all_favorites (store_with (lit "export const songs = {'u1': ['a']};")) = (JObj [], None).
Proof.
  apply (favorites_absent_is_empty _ (lit "export const songs = {'u1': ['a']};"));
    reflexivity.
Defined.

(** ** What a favorites request can change *)

Section Frame.
Variable py_str : json -> pystr.
Variable now : datetime.

Lemma update_user_favorites_outcome (g : github) (user_id : pystr) (l : list json) :
  (exists e, update_user_favorites py_str now g user_id l = ((false, e), g))
  \/ (exists text,
        update_user_favorites py_str now g user_id l
        = ((true, None), set_favorites_file g text)).
Proof.
  unfold update_user_favorites.
  destruct (repo g); cbn [negb]; [|left; now eexists].
  assert (H : forall r : res pystr,
             (exists e, match r with
                        | Raised msg => ((false, Some msg), g)
                        | Val js =>
                            match update_error g with
                            | Some msg => ((false, Some msg), g)
                            | None => ((true, None), set_favorites_file g (new_content now js))
                            end
                        end = ((false, e), g))
             \/ (exists text, match r with
                              | Raised msg => ((false, Some msg), g)
                              | Val js =>
                                  match update_error g with
                                  | Some msg => ((false, Some msg), g)
                                  | None =>
                                      ((true, None), set_favorites_file g (new_content now js))
                                  end
                              end = ((true, None), set_favorites_file g text))).
  { intros [js | msg]; [|left; now eexists].
    destruct (update_error g); [left | right]; now eexists. }
  destruct (favorites_file g) as [msg | msg | text]; [left; now eexists | |];
    destruct (get_all_favorites g) as [all_favs error];
    (destruct (truthy error && _); [left; now eexists | apply H]).
Qed.

Lemma add_favorite_outcome (g : github) (user_id : pystr) (req : request) :
  snd (add_favorite py_str now g user_id req) = g
  \/ (status (fst (add_favorite py_str now g user_id req)) = 200
      /\ exists text, snd (add_favorite py_str now g user_id req) = set_favorites_file g text).
Proof.
  unfold add_favorite.
  destruct (request_song_id req) as [[|c song_id]|]; [now left | | now left].
  destruct (get_user_favorites g user_id) as [[favorites error]|]; [|now left].
  destruct (truthy error); [now left|].
  destruct (py_contains (c :: song_id) favorites) as [[|]|]; [now left | | now left].
  destruct (py_append favorites (c :: song_id)) as [l|]; [|now left].
  destruct (update_user_favorites_outcome g user_id l) as [[e ->] | [text ->]].
  - now left.
  - right. split; [reflexivity | now exists text].
Qed.

Lemma remove_favorite_outcome (g : github) (user_id : pystr) (req : request) :
  snd (remove_favorite py_str now g user_id req) = g
  \/ (status (fst (remove_favorite py_str now g user_id req)) = 200
      /\ exists text,
          snd (remove_favorite py_str now g user_id req) = set_favorites_file g text).
Proof.
  unfold remove_favorite.
  destruct (request_song_id req) as [[|c song_id]|]; [now left | | now left].
  destruct (get_user_favorites g user_id) as [[favorites error]|]; [|now left].
  destruct (truthy error); [now left|].
  destruct (py_contains (c :: song_id) favorites) as [[|]|]; [| now left | now left].
  destruct (py_remove favorites (c :: song_id)) as [l|]; [|now left].
  destruct (update_user_favorites_outcome g user_id l) as [[e ->] | [text ->]].
  - now left.
  - right. split; [reflexivity | now exists text].
Qed.

(** X5: a favorites request that is not answered 200 leaves the repository as
    it was. *)
Theorem failed_request_no_write (g : github) (user_id : pystr) (req : request) :
  (status (fst (add_favorite py_str now g user_id req)) <> 200 ->
   snd (add_favorite py_str now g user_id req) = g)
  /\ (status (fst (remove_favorite py_str now g user_id req)) <> 200 ->
      snd (remove_favorite py_str now g user_id req) = g).
Proof.
  split; intro H.
  - destruct (add_favorite_outcome g user_id req) as [E | [E _]]; [exact E | contradiction].
  - destruct (remove_favorite_outcome g user_id req) as [E | [E _]]; [exact E | contradiction].
Qed.

(** X6: whatever a favorites request does, the catalog, the configuration and
    the name of the repository stay as they were. *)
Theorem favorites_requests_keep_catalog (g : github) (user_id : pystr) (req : request) :
  let added := snd (add_favorite py_str now g user_id req) in
  let removed := snd (remove_favorite py_str now g user_id req) in
  (sheets_file added = sheets_file g /\ repo added = repo g /\ repo_name added = repo_name g)
  /\ (sheets_file removed = sheets_file g /\ repo removed = repo g
      /\ repo_name removed = repo_name g).
Proof.
  cbv zeta. split.
  - destruct (add_favorite_outcome g user_id req) as [-> | [_ [text ->]]]; now repeat split.
  - destruct (remove_favorite_outcome g user_id req) as [-> | [_ [text ->]]]; now repeat split.
Qed.

End Frame.

Lemma failed_request_no_write_witness :
  snd (add_favorite str_of_string noon store_not_configured (lit "u1")
         (GET [(lit "song_id", lit "a")])) = store_not_configured.
Proof.
  apply (proj1 (failed_request_no_write str_of_string noon store_not_configured (lit "u1")
                  (GET [(lit "song_id", lit "a")]))).
  vm_compute. discriminate.
Defined.

(** ** Add and remove on a well-formed store *)

Lemma existsb_str_eqb_In (x : pystr) (l : list pystr) :
  existsb (str_eqb x) l = true <-> In x l.
Proof.
  rewrite existsb_exists. split.
  - intros (y & Hy & E). apply str_eqb_eq in E. now subst y.
  - intro H. exists x. split; [exact H | apply str_eqb_refl].
Qed.

Lemma remove_first_remove_one (x : pystr) (l : list pystr) :
  existsb (str_eqb x) l = true ->
  remove_first x (map JStr l) = Some (map JStr (remove_one x l)).
Proof.
  induction l as [|y l IH]; simpl; [discriminate|].
  destruct (str_eqb x y); [reflexivity|]. simpl. intro H. now rewrite (IH H).
Qed.

Lemma remove_one_safe (x : pystr) (l : list pystr) :
  forallb safe_id l = true -> forallb safe_id (remove_one x l) = true.
Proof.
  induction l as [|y l IH]; simpl; [reflexivity|]. intro H.
  apply andb_prop in H as [Hy Hl]. destruct (str_eqb x y); [exact Hl|].
  simpl. now rewrite Hy, (IH Hl).
Qed.

Lemma store_holds_write (g : github) (now : datetime) (m : favmap)
  (user_id : pystr) (l : list pystr) :
  store_holds g m ->
  safe_id user_id = true ->
  forallb safe_id l = true ->
  store_holds (set_favorites_file g (module_text now (dict_set m user_id l)))
    (dict_set m user_id l).
Proof.
  intros (Hg & Hd & Hs & He) Hu Hl.
  destruct (get_all_favorites_repo g _ Hg) as (Hr & _).
  assert (Hs' : safe_favs (dict_set m user_id l) = true) by now apply safe_favs_set.
  assert (Hd' : NoDup (map fst (dict_set m user_id l))) by now apply dict_set_NoDup.
  repeat split; try assumption.
  now apply get_all_favorites_module_text.
Qed.

Section OnStore.
Variable py_str : json -> pystr.
Hypothesis py_str_string : forall s, py_str (JStr s) = s.
Variable now : datetime.
Variable g : github.
Variable m : favmap.
Hypothesis holds : store_holds g m.
Variable user_id song_id : pystr.
Hypothesis user_safe : safe_id user_id = true.
Variable req : request.
Hypothesis req_song : request_song_id req = Some song_id.
Hypothesis song_nonempty : song_id <> [].

Lemma add_favorite_present_on_store :
  existsb (str_eqb song_id) (favs_of m user_id) = true ->
  add_favorite py_str now g user_id req
  = (jsonify [(lit "message", JStr (lit "Already in favorites"));
              (lit "user_id", JStr user_id);
              (lit "favorites", JArr (map JStr (favs_of m user_id)))] 200, g).
Proof.
  intro Hin. destruct holds as (Hg & _). unfold add_favorite. rewrite req_song.
  destruct song_id as [|c s]; [contradiction|].
  rewrite (get_user_favorites_favs g m user_id Hg). cbn [truthy py_contains].
  now rewrite existsb_is_str, Hin.
Qed.

Lemma add_favorite_absent_on_store :
  existsb (str_eqb song_id) (favs_of m user_id) = false ->
  add_favorite py_str now g user_id req
  = (jsonify [(lit "message", JStr (lit "Added to favorites"));
              (lit "user_id", JStr user_id);
              (lit "count", JInt (Z.of_nat (length (map JStr (favs_of m user_id ++ [song_id])))));
              (lit "favorites", JArr (map JStr (favs_of m user_id ++ [song_id])))] 200,
     set_favorites_file g
       (module_text now (dict_set m user_id (favs_of m user_id ++ [song_id])))).
Proof.
  intro Hout. destruct holds as (Hg & _ & _ & He).
  now apply (add_favorite_absent py_str py_str_string now g m user_id song_id req).
Qed.

Lemma remove_favorite_present_on_store :
  existsb (str_eqb song_id) (favs_of m user_id) = true ->
  remove_favorite py_str now g user_id req
  = (jsonify [(lit "message", JStr (lit "Removed from favorites"));
              (lit "user_id", JStr user_id);
              (lit "count",
               JInt (Z.of_nat (length (map JStr (remove_one song_id (favs_of m user_id))))));
              (lit "favorites", JArr (map JStr (remove_one song_id (favs_of m user_id))))] 200,
     set_favorites_file g
       (module_text now (dict_set m user_id (remove_one song_id (favs_of m user_id))))).
Proof.
  intro Hin. destruct holds as (Hg & _ & _ & He). unfold remove_favorite. rewrite req_song.
  destruct song_id as [|c s] eqn:Es; [contradiction|]. rewrite <- Es in *.
  rewrite (get_user_favorites_favs g m user_id Hg). cbn [truthy py_contains].
  rewrite existsb_is_str, Hin. cbn [py_remove]. rewrite (remove_first_remove_one _ _ Hin).
  rewrite (update_user_favorites_favs py_str py_str_string now g m user_id _ Hg He).
  rewrite Es. reflexivity.
Qed.

Lemma remove_favorite_absent_on_store :
  existsb (str_eqb song_id) (favs_of m user_id) = false ->
  remove_favorite py_str now g user_id req
  = (jsonify [(lit "message", JStr (lit "Not in favorites"));
              (lit "user_id", JStr user_id);
              (lit "favorites", JArr (map JStr (favs_of m user_id)))] 200, g).
Proof.
  intro Hout. destruct holds as (Hg & _). unfold remove_favorite. rewrite req_song.
  destruct song_id as [|c s]; [contradiction|].
  rewrite (get_user_favorites_favs g m user_id Hg). cbn [truthy py_contains].
  now rewrite existsb_is_str, Hout.
Qed.

End OnStore.

Lemma occurrences_remove_one_same (x : pystr) (l : list pystr) :
  existsb (str_eqb x) l = true ->
  occurrences x (remove_one x l) + 1 = occurrences x l.
Proof.
  unfold occurrences. induction l as [|y l IH]; simpl; [discriminate|].
  destruct (str_eqb x y) eqn:E; simpl; [lia|]. rewrite E. intro H. now apply IH.
Qed.

Lemma occurrences_remove_one_other (x y : pystr) (l : list pystr) :
  y <> x -> occurrences y (remove_one x l) = occurrences y l.
Proof.
  intro Hne. unfold occurrences. induction l as [|z l IH]; simpl; [reflexivity|].
  destruct (str_eqb x z) eqn:E.
  - apply str_eqb_eq in E. subst z.
    destruct (str_eqb y x) eqn:E'; [apply str_eqb_eq in E'; contradiction | reflexivity].
  - simpl. destruct (str_eqb y z); simpl; now rewrite IH.
Qed.

Lemma favs_of_set_other (m : favmap) (k k0 : pystr) (l : list pystr) :
  k0 <> k -> favs_of (dict_set m k l) k0 = favs_of m k0.
Proof.
  intro H. unfold favs_of, dict_get_default. now rewrite dict_get_set_other.
Qed.

Lemma NoDup_snoc {A} (l : list A) (x : A) : NoDup l -> ~ In x l -> NoDup (l ++ [x]).
Proof.
  induction l as [|y l IH]; simpl; intros Hl Hx.
  - constructor; [intros [] | constructor].
  - inversion Hl as [|? ? Hy Hl']; subst. constructor.
    + intro Hin. apply in_app_or in Hin as [Hin | [-> | []]]; [contradiction|].
      apply Hx. now left.
    + apply IH; [exact Hl'|]. intro Hin. apply Hx. now right.
Qed.

Section StoreProps.
Variable py_str : json -> pystr.
Hypothesis py_str_string : forall s, py_str (JStr s) = s.
Variable now : datetime.
Variable g : github.
Variable m : favmap.
Hypothesis holds : store_holds g m.
Variable user_id song_id : pystr.
Hypothesis user_safe : safe_id user_id = true.
Hypothesis song_safe : safe_id song_id = true.
Variable req : request.
Hypothesis req_song : request_song_id req = Some song_id.
Hypothesis song_nonempty : song_id <> [].

Lemma add_favorite_holds :
  exists m',
    store_holds (snd (add_favorite py_str now g user_id req)) m'
    /\ favs_of m' user_id
       = (if existsb (str_eqb song_id) (favs_of m user_id)
          then favs_of m user_id else favs_of m user_id ++ [song_id])
    /\ forall other, other <> user_id -> favs_of m' other = favs_of m other.
Proof.
  destruct (existsb (str_eqb song_id) (favs_of m user_id)) eqn:E.
  - exists m.
    rewrite (add_favorite_present_on_store py_str now g m holds user_id song_id req
               req_song song_nonempty E).
    cbn [snd]. split; [exact holds | split; reflexivity].
  - exists (dict_set m user_id (favs_of m user_id ++ [song_id])).
    rewrite (add_favorite_absent_on_store py_str py_str_string now g m holds user_id song_id
               req req_song song_nonempty E).
    cbn [snd]. split; [|split].
    + apply store_holds_write; [exact holds | exact user_safe|].
      destruct holds as (_ & _ & Hs & _).
      rewrite forallb_app, (safe_favs_of m user_id Hs). simpl. now rewrite song_safe.
    + apply favs_of_set.
    + intros other Hne. now apply favs_of_set_other.
Qed.

Lemma remove_favorite_holds :
  exists m',
    store_holds (snd (remove_favorite py_str now g user_id req)) m'
    /\ favs_of m' user_id
       = (if existsb (str_eqb song_id) (favs_of m user_id)
          then remove_one song_id (favs_of m user_id) else favs_of m user_id)
    /\ forall other, other <> user_id -> favs_of m' other = favs_of m other.
Proof.
  destruct (existsb (str_eqb song_id) (favs_of m user_id)) eqn:E.
  - exists (dict_set m user_id (remove_one song_id (favs_of m user_id))).
    rewrite (remove_favorite_present_on_store py_str py_str_string now g m holds user_id
               song_id req req_song song_nonempty E).
    cbn [snd]. split; [|split].
    + apply store_holds_write; [exact holds | exact user_safe|].
      destruct holds as (_ & _ & Hs & _).
      apply remove_one_safe, (safe_favs_of m user_id Hs).
    + apply favs_of_set.
    + intros other Hne. now apply favs_of_set_other.
  - exists m.
    rewrite (remove_favorite_absent_on_store py_str now g m holds user_id song_id req
               req_song song_nonempty E).
    cbn [snd]. split; [exact holds | split; reflexivity].
Qed.


(** X8: on a well-formed store an add or a remove for one user leaves what
    every other user reads as it was. *)
Theorem other_users_untouched (other : pystr) :
  other <> user_id ->
  get_user_favorites (snd (add_favorite py_str now g user_id req)) other
  = get_user_favorites g other
  /\ get_user_favorites (snd (remove_favorite py_str now g user_id req)) other
     = get_user_favorites g other.
Proof.
  intro Hne. destruct holds as (Hg & _).
  destruct add_favorite_holds as (ma & (Hga & _) & _ & Ha).
  destruct remove_favorite_holds as (mr & (Hgr & _) & _ & Hr).
  rewrite (get_user_favorites_favs _ ma other Hga), (get_user_favorites_favs _ mr other Hgr),
    (get_user_favorites_favs g m other Hg), (Ha other Hne), (Hr other Hne).
  now split.
Qed.

(** X9: on a well-formed store a second add of the same song answers Already
    in favorites and writes nothing. *)
Theorem add_twice_is_add_once (later : datetime) :
  let once := add_favorite py_str now g user_id req in
  let twice := add_favorite py_str later (snd once) user_id req in
  snd twice = snd once
  /\ dict_get (fields (fst twice)) (lit "message") = Some (JStr (lit "Already in favorites")).
Proof.
  cbv zeta. destruct add_favorite_holds as (m' & Hm' & Hl & _).
  assert (Hin : existsb (str_eqb song_id) (favs_of m' user_id) = true).
  { rewrite Hl. destruct (existsb (str_eqb song_id) (favs_of m user_id)) eqn:E; [exact E|].
    rewrite existsb_app. simpl. now rewrite str_eqb_refl, orb_true_r. }
  rewrite (add_favorite_present_on_store py_str later _ m' Hm' user_id song_id req
             req_song song_nonempty Hin).
  now split.
Qed.

(** X10: on a well-formed store, after the add of a song that was not a
    favorite the favorites route lists it last and counts one more. *)
Theorem add_then_get_favorites :
  existsb (str_eqb song_id) (favs_of m user_id) = false ->
  get_favorites_route (snd (add_favorite py_str now g user_id req)) user_id
  = jsonify [(lit "user_id", JStr user_id);
             (lit "count", JInt (Z.of_nat (length (favs_of m user_id) + 1)));
             (lit "favorites", JArr (map JStr (favs_of m user_id ++ [song_id])))] 200.
Proof.
  intro E. destruct add_favorite_holds as (m' & (Hg' & _) & Hl & _). rewrite E in Hl.
  unfold get_favorites_route. rewrite (get_user_favorites_favs _ m' user_id Hg'), Hl.
  cbn [truthy andb py_len]. now rewrite length_map, length_app.
Qed.

(** X11: on a well-formed store a remove deletes the first occurrence of the
    song and nothing else: the song occurs once less, every other song as
    often as before. *)
Theorem remove_deletes_one_occurrence :
  existsb (str_eqb song_id) (favs_of m user_id) = true ->
  get_user_favorites (snd (remove_favorite py_str now g user_id req)) user_id
  = Val (JArr (map JStr (remove_one song_id (favs_of m user_id))), None)
  /\ occurrences song_id (remove_one song_id (favs_of m user_id)) + 1
     = occurrences song_id (favs_of m user_id)
  /\ forall other, other <> song_id ->
                   occurrences other (remove_one song_id (favs_of m user_id))
                   = occurrences other (favs_of m user_id).
Proof.
  intro E. destruct remove_favorite_holds as (m' & (Hg' & _) & Hl & _). rewrite E in Hl.
  split; [|split].
  - now rewrite (get_user_favorites_favs _ m' user_id Hg'), Hl.
  - now apply occurrences_remove_one_same.
  - intros other Hne. now apply occurrences_remove_one_other.
Qed.

End StoreProps.

Ltac example_holds :=
  unfold store_holds;
  split; [vm_compute; reflexivity|];
  split; [repeat constructor; simpl; intuition discriminate|];
  split; reflexivity.


Lemma other_users_untouched_witness :
  get_user_favorites
    (snd (add_favorite str_of_string noon (store_with example_text_no_comment) (lit "u1")
            (GET [(lit "song_id", lit "z")]))) (lit "u2")
  = get_user_favorites (store_with example_text_no_comment) (lit "u2")
  /\ get_user_favorites
       (snd (remove_favorite str_of_string noon (store_with example_text_no_comment)
               (lit "u1") (GET [(lit "song_id", lit "z")]))) (lit "u2")
     = get_user_favorites (store_with example_text_no_comment) (lit "u2").
Proof.
  apply (other_users_untouched str_of_string (fun s => eq_refl) noon
           (store_with example_text_no_comment) example_favs ltac:(example_holds)
           (lit "u1") (lit "z") eq_refl eq_refl (GET [(lit "song_id", lit "z")]) eq_refl).
  - discriminate.
  - discriminate.
Defined.

Lemma add_twice_is_add_once_witness :
  let once := add_favorite str_of_string noon (store_with example_text_no_comment) (lit "u1")
                (GET [(lit "song_id", lit "z")]) in
  let twice := add_favorite str_of_string noon (snd once) (lit "u1")
                 (GET [(lit "song_id", lit "z")]) in
  snd twice = snd once
  /\ dict_get (fields (fst twice)) (lit "message") = Some (JStr (lit "Already in favorites")).
Proof.
  apply (add_twice_is_add_once str_of_string (fun s => eq_refl) noon
           (store_with example_text_no_comment) example_favs ltac:(example_holds)
           (lit "u1") (lit "z") eq_refl eq_refl (GET [(lit "song_id", lit "z")]) eq_refl).
  discriminate.
Defined.

Lemma add_then_get_favorites_witness :
  get_favorites_route
    (snd (add_favorite str_of_string noon (store_with example_text_no_comment) (lit "u1")
            (GET [(lit "song_id", lit "z")]))) (lit "u1")
  = jsonify [(lit "user_id", JStr (lit "u1"));
             (lit "count", JInt 3);
             (lit "favorites", JArr [JStr (lit "a"); JStr (lit "b"); JStr (lit "z")])] 200.
Proof.
  apply (add_then_get_favorites str_of_string (fun s => eq_refl) noon
           (store_with example_text_no_comment) example_favs ltac:(example_holds)
           (lit "u1") (lit "z") eq_refl eq_refl (GET [(lit "song_id", lit "z")]) eq_refl).
  - discriminate.
  - reflexivity.
Defined.

Lemma remove_deletes_one_occurrence_witness :
  get_user_favorites
    (snd (remove_favorite str_of_string noon (store_with example_text_no_comment) (lit "u1")
            (GET [(lit "song_id", lit "a")]))) (lit "u1")
  = Val (JArr [JStr (lit "b")], None).
Proof.
  apply (proj1 (remove_deletes_one_occurrence str_of_string (fun s => eq_refl) noon
                  (store_with example_text_no_comment) example_favs ltac:(example_holds)
                  (lit "u1") (lit "a") eq_refl (GET [(lit "song_id", lit "a")]) eq_refl
                  ltac:(discriminate) eq_refl)).
Defined.

Section Unreadable.
Variable py_str : json -> pystr.
Hypothesis py_str_string : forall s, py_str (JStr s) = s.


End Unreadable.


(** ** Get by id is a substring test *)

(** X13: the suffix test of get-by-id never adds a match: a song matches
    exactly when the id is a substring of its url, so a song without url
    matches the empty id only. *)
Theorem get_song_is_substring_match (song_id : pystr) (s : song) :
  song_matches song_id s = contains song_id (url_of s)
  /\ (url s = None -> (song_matches song_id s = true <-> song_id = [])).
Proof.
  assert (H : song_matches song_id s = contains song_id (url_of s)).
  { unfold song_matches. fold (url_of s).
    destruct (contains song_id (url_of s)) eqn:E; [reflexivity|]. cbn [orb].
    destruct (endswith (url_of s) (lit "/" ++ song_id)) eqn:E'; [|reflexivity].
    apply endswith_spec in E' as [a Ha].
    assert (contains song_id (url_of s) = true); [|congruence].
    apply contains_spec. exists (a ++ lit "/"), []. rewrite Ha. app_norm. reflexivity. }
  split; [exact H|].
  intro Hu. rewrite H. unfold url_of. rewrite Hu. cbn [field_or].
  destruct song_id; [now split | split; [discriminate | discriminate]].
Qed.

(** ** The simplified list *)

Lemma split_char_nonempty (sep : char) (s : pystr) : split_char sep s <> [].
Proof.
  destruct s as [|c s]; simpl; [discriminate|].
  destruct (N.eqb c sep); [discriminate|]. destruct (split_char sep s); discriminate.
Qed.

(** Joining the segments with the separator gives the string back. *)
Lemma split_char_join (sep : char) (s : pystr) : join [sep] (split_char sep s) = s.
Proof.
  induction s as [|c s IH]; [reflexivity|].
  cbn [split_char]. destruct (N.eqb c sep) eqn:E.
  - apply N.eqb_eq in E. subst c.
    pose proof (split_char_nonempty sep s) as Hne.
    destruct (split_char sep s) as [|seg segs]; [contradiction|].
    change (join [sep] ([] :: seg :: segs)) with (sep :: join [sep] (seg :: segs)).
    now rewrite IH.
  - pose proof (split_char_nonempty sep s) as Hne.
    destruct (split_char sep s) as [|seg segs]; [contradiction|].
    rewrite <- IH. destruct segs; reflexivity.
Qed.

Lemma split_char_no_sep (sep : char) (s : pystr) :
  Forall (fun seg => existsb (fun c => N.eqb c sep) seg = false) (split_char sep s).
Proof.
  induction s as [|c s IH]; [repeat constructor|].
  cbn [split_char]. destruct (N.eqb c sep) eqn:E.
  - constructor; [reflexivity | exact IH].
  - destruct (split_char sep s) as [|seg segs]; [repeat constructor; simpl; now rewrite E|].
    inversion IH; subst. constructor; [|assumption]. simpl. now rewrite E.
Qed.

Lemma join_last (sep : char) (segs : list pystr) :
  segs <> [] ->
  exists p, join [sep] segs = p ++ last segs []
            /\ (p = [] \/ exists p', p = p' ++ [sep]).
Proof.
  induction segs as [|seg segs IH]; [contradiction|]. intros _.
  destruct segs as [|seg' segs].
  - exists []. split; [reflexivity | now left].
  - destruct (IH ltac:(discriminate)) as (p & Hp & Hs).
    exists (seg ++ [sep] ++ p). split.
    + change (join [sep] (seg :: seg' :: segs))
        with (seg ++ [sep] ++ join [sep] (seg' :: segs)).
      rewrite Hp. change (last (seg :: seg' :: segs) []) with (last (seg' :: segs) []).
      now rewrite <- !app_assoc.
    + right. destruct Hs as [-> | [p' ->]].
      * exists seg. now rewrite app_nil_r.
      * exists (seg ++ [sep] ++ p'). now rewrite <- !app_assoc.
Qed.

(** The last segment holds no slash, and the url is the last segment
    itself or ends with a slash and the last segment. *)
Lemma last_segment_spec (u : pystr) :
  existsb (fun c => N.eqb c 47) (last_segment u) = false
  /\ exists p, u = p ++ last_segment u /\ (p = [] \/ exists p', p = p' ++ lit "/").
Proof.
  unfold last_segment. split.
  - pose proof (split_char_no_sep 47 u) as H.
    pose proof (split_char_nonempty 47 u) as Hne.
    rewrite Forall_forall in H. apply H.
    destruct (exists_last Hne) as (l & x & E). rewrite E, last_last.
    apply in_or_app. right. now left.
  - destruct (join_last 47 (split_char 47 u) (split_char_nonempty 47 u)) as (p & Hp & Hs).
    rewrite split_char_join in Hp. now exists p.
Qed.

(** X14: with the catalog loaded the simplified list has one entry per song, in
    catalog order, and the id of an entry is the part of the song's url
    after its last slash (the whole url when it has none). *)
Theorem simplified_id_is_last_segment (g : github) (songs : list song) :
  catalog_is g songs ->
  get_songs g
  = jsonify [(lit "count", JInt (Z.of_nat (length songs)));
             (lit "songs", JArr (map simplified songs))] 200
  /\ forall s, In s songs ->
       exists e id,
         simplified s = JObj e
         /\ dict_get e (lit "id") = Some (JStr id)
         /\ existsb (fun c => N.eqb c 47) id = false
         /\ exists p, url_of s = p ++ id /\ (p = [] \/ exists p', p = p' ++ lit "/").
Proof.
  intros [Hr Hs]. split.
  - unfold get_songs, get_songs_data. rewrite Hr, Hs. cbn [negb truthy].
    now rewrite length_map.
  - intros s _. eexists _, (last_segment (url_of s)). split; [reflexivity|].
    split; [reflexivity|]. apply last_segment_spec.
Qed.

Lemma simplified_id_is_last_segment_witness :
  get_songs example_catalog_store
  = jsonify [(lit "count", JInt 3); (lit "songs", JArr (map simplified example_catalog))] 200
  /\ dict_get (fields {| status := 200;
                         body := simplified (song_with "Ode" "https://sheets.example/ode-to-joy"
                                               (Some (lit "Easy"))) |}) (lit "id")
     = Some (JStr (lit "ode-to-joy")).
Proof.
  split.
  - apply (proj1 (simplified_id_is_last_segment example_catalog_store example_catalog
                    (conj eq_refl eq_refl))).
  - reflexivity.
Defined.

(** ** Categories *)

Lemma set_add_In (s : list pystr) (x y : pystr) : In y (set_add s x) <-> y = x \/ In y s.
Proof.
  unfold set_add. destruct (existsb (str_eqb x) s) eqn:E.
  - apply existsb_str_eqb_In in E. split; [auto | intros [-> | H]; assumption].
  - rewrite in_app_iff. simpl. intuition congruence.
Qed.

Lemma set_add_NoDup (s : list pystr) (x : pystr) : NoDup s -> NoDup (set_add s x).
Proof.
  intro H. unfold set_add. destruct (existsb (str_eqb x) s) eqn:E; [exact H|].
  apply NoDup_snoc; [exact H|]. intro Hin. apply existsb_str_eqb_In in Hin. congruence.
Qed.

Lemma fold_set_add_In (l s : list pystr) (y : pystr) :
  In y (fold_left set_add l s) <-> In y l \/ In y s.
Proof.
  revert s; induction l as [|x l IH]; intro s; simpl; [tauto|].
  rewrite IH, set_add_In. intuition congruence.
Qed.

Lemma fold_set_add_NoDup (l s : list pystr) : NoDup s -> NoDup (fold_left set_add l s).
Proof.
  revert s; induction l as [|x l IH]; intros s H; [exact H|].
  simpl. now apply IH, set_add_NoDup.
Qed.

Lemma collect_from_In (songs : list song) (acc : list pystr) (c : pystr) :
  In c (fold_left (fun a s => fold_left set_add (field_or (categories s) []) a) songs acc)
  <-> (exists s, In s songs /\ In c (field_or (categories s) [])) \/ In c acc.
Proof.
  revert acc; induction songs as [|s songs IH]; intro acc; simpl.
  - split; [auto | intros [(s & [] & _) | H]; exact H].
  - rewrite IH, fold_set_add_In. split.
    + intros [(s' & Hs' & Hc) | [Hc | Hc]]; [left; exists s'; auto | left; exists s; auto | auto].
    + intros [(s' & [<- | Hs'] & Hc) | Hc]; [auto | left; exists s'; auto | auto].
Qed.

Lemma collect_from_NoDup (songs : list song) (acc : list pystr) :
  NoDup acc ->
  NoDup (fold_left (fun a s => fold_left set_add (field_or (categories s) []) a) songs acc).
Proof.
  revert acc; induction songs as [|s songs IH]; intros acc H; [exact H|].
  simpl. now apply IH, fold_set_add_NoDup.
Qed.

Lemma str_leb_refl (a : pystr) : str_leb a a = true.
Proof. induction a as [|x a IH]; simpl; [reflexivity|]. now rewrite N.ltb_irrefl, N.eqb_refl. Qed.

Lemma str_leb_total (a b : pystr) : str_leb a b = false -> str_leb b a = true.
Proof.
  revert b; induction a as [|x a IH]; intros [|y b]; simpl; try discriminate; try reflexivity.
  destruct (N.ltb x y) eqn:E1; [discriminate|].
  destruct (N.eqb x y) eqn:E2.
  - apply N.eqb_eq in E2. subst y. rewrite N.ltb_irrefl, N.eqb_refl. apply IH.
  - intros _. apply N.ltb_ge in E1. apply N.eqb_neq in E2.
    assert (H : (y <? x)%N = true) by (apply N.ltb_lt; lia). now rewrite H.
Qed.

Lemma str_leb_antisym (a b : pystr) : str_leb a b = true -> str_leb b a = true -> a = b.
Proof.
  revert b; induction a as [|x a IH]; intros [|y b]; simpl; try discriminate; try reflexivity.
  destruct (N.ltb x y) eqn:E1.
  - apply N.ltb_lt in E1. intros _.
    assert (H : (y <? x)%N = false) by (apply N.ltb_ge; lia). rewrite H.
    assert (H' : (y =? x)%N = false) by (apply N.eqb_neq; lia). now rewrite H'.
  - destruct (N.eqb x y) eqn:E2; [|discriminate].
    apply N.eqb_eq in E2. subst y. rewrite N.ltb_irrefl, N.eqb_refl.
    intros H1 H2. f_equal. now apply IH.
Qed.

Lemma insert_sorted_In (x y : pystr) (l : list pystr) :
  In y (insert_sorted x l) <-> y = x \/ In y l.
Proof.
  induction l as [|z l IH]; simpl; [intuition congruence|].
  destruct (str_leb x z); simpl; [intuition congruence|]. rewrite IH. intuition congruence.
Qed.

Lemma sorted_In (l : list pystr) (y : pystr) : In y (sorted l) <-> In y l.
Proof.
  induction l as [|x l IH]; simpl; [tauto|].
  rewrite insert_sorted_In, IH. intuition congruence.
Qed.

Lemma insert_sorted_length (x : pystr) (l : list pystr) :
  length (insert_sorted x l) = S (length l).
Proof.
  induction l as [|z l IH]; simpl; [reflexivity|].
  destruct (str_leb x z); simpl; [reflexivity | now rewrite IH].
Qed.

Lemma sorted_length (l : list pystr) : length (sorted l) = length l.
Proof.
  induction l as [|x l IH]; simpl; [reflexivity|]. now rewrite insert_sorted_length, IH.
Qed.

Lemma insert_sorted_NoDup (x : pystr) (l : list pystr) :
  NoDup l -> ~ In x l -> NoDup (insert_sorted x l).
Proof.
  induction l as [|z l IH]; simpl; intros Hl Hx.
  - constructor; [intros [] | constructor].
  - destruct (str_leb x z).
    + constructor; [exact Hx | exact Hl].
    + inversion Hl as [|? ? Hz Hl']; subst. constructor.
      * rewrite insert_sorted_In. intros [-> | H]; [apply Hx; now left | contradiction].
      * apply IH; [exact Hl'|]. intro H. apply Hx. now right.
Qed.

Lemma sorted_NoDup (l : list pystr) : NoDup l -> NoDup (sorted l).
Proof.
  induction l as [|x l IH]; intro H; [constructor|].
  inversion H as [|? ? Hx Hl]; subst. simpl.
  apply insert_sorted_NoDup; [now apply IH|]. now rewrite sorted_In.
Qed.

Lemma str_eqb_false_neq (a b : pystr) : a <> b -> negb (str_eqb a b) = true.
Proof. intro H. apply negb_true_iff. now apply str_eqb_neq. Qed.

Lemma insert_sorted_ascending (x : pystr) (l : list pystr) :
  ascending l = true -> ~ In x l -> ascending (insert_sorted x l) = true.
Proof.
  induction l as [|z l IH]; intros Hl Hx; [reflexivity|].
  cbn [insert_sorted]. destruct (str_leb x z) eqn:E.
  - change (ascending (x :: z :: l))
      with (str_leb x z && negb (str_eqb x z) && ascending (z :: l)).
    rewrite E, Hl, str_eqb_false_neq; [reflexivity|].
    intros ->. apply Hx. now left.
  - assert (Hzx : str_leb z x = true) by now apply str_leb_total.
    assert (Hne : z <> x) by (intros ->; apply Hx; now left).
    assert (Hx' : ~ In x l) by (intro H; apply Hx; now right).
    destruct l as [|y l].
    + cbn [insert_sorted ascending]. now rewrite Hzx, str_eqb_false_neq.
    + change (ascending (z :: y :: l))
        with (str_leb z y && negb (str_eqb z y) && ascending (y :: l)) in Hl.
      apply andb_prop in Hl as [Hzy Hl]. specialize (IH Hl Hx').
      cbn [insert_sorted] in *. destruct (str_leb x y).
      * change (ascending (z :: x :: y :: l))
          with (str_leb z x && negb (str_eqb z x) && ascending (x :: y :: l)).
        now rewrite Hzx, str_eqb_false_neq, IH.
      * change (ascending (z :: y :: insert_sorted x l))
          with (str_leb z y && negb (str_eqb z y) && ascending (y :: insert_sorted x l)).
        now rewrite Hzy, IH.
Qed.

Lemma sorted_ascending (l : list pystr) : NoDup l -> ascending (sorted l) = true.
Proof.
  induction l as [|x l IH]; intro H; [reflexivity|].
  inversion H as [|? ? Hx Hl]; subst. simpl.
  apply insert_sorted_ascending; [now apply IH|]. now rewrite sorted_In.
Qed.

(** X15: with the catalog loaded, the categories route lists each category of
    some song exactly once, in strictly ascending order, and counts
    them. *)
Theorem categories_sorted_distinct (g : github) (songs : list song) :
  catalog_is g songs ->
  exists cats,
    get_categories g
    = jsonify [(lit "count", JInt (Z.of_nat (length cats)));
               (lit "categories", JArr (map JStr cats))] 200
    /\ ascending cats = true
    /\ NoDup cats
    /\ forall c, In c cats <-> exists s, In s songs /\ In c (field_or (categories s) []).
Proof.
  intros [Hr Hs]. exists (sorted (collect_categories songs)).
  assert (Hnd : NoDup (collect_categories songs)) by (apply collect_from_NoDup; constructor).
  split; [|split; [|split]].
  - unfold get_categories, get_songs_data. rewrite Hr, Hs. cbn [negb truthy].
    now rewrite sorted_length.
  - now apply sorted_ascending.
  - now apply sorted_NoDup.
  - intro c. rewrite sorted_In. unfold collect_categories. rewrite collect_from_In.
    simpl. tauto.
Qed.

Lemma categories_sorted_distinct_witness :
  exists cats,
    get_categories tagged_store
    = jsonify [(lit "count", JInt (Z.of_nat (length cats)));
               (lit "categories", JArr (map JStr cats))] 200
    /\ ascending cats = true
    /\ NoDup cats
    /\ forall c, In c cats
                 <-> exists s, In s tagged_catalog /\ In c (field_or (categories s) []).
Proof.
  apply (categories_sorted_distinct tagged_store tagged_catalog). split; reflexivity.
Defined.

Section CategoryProps.
Variable lower : pystr -> pystr.

Lemma filter_length_pos {A} (p : A -> bool) (l : list A) (x : A) :
  In x l -> p x = true -> 1 <= length (filter p l).
Proof.
  induction l as [|y l IH]; simpl; [intros []|].
  intros [-> | Hin] Hp.
  - rewrite Hp. simpl. lia.
  - destruct (p y); simpl; [lia | now apply IH].
Qed.


End CategoryProps.


(** ** Statistics, continued *)

Lemma stats_fold_artists (songs : list song) (acc : stats_acc) (a : pystr) :
  In a (artists (fold_left stats_step songs acc))
  <-> In a (artists acc)
      \/ exists s, In s songs /\ artist_of s = a /\ a <> [] /\ a <> lit "Unknown Artist".
Proof.
  revert acc; induction songs as [|s songs IH]; intro acc.
  - simpl. split; [auto | intros [H | (s & [] & _)]; exact H].
  - rewrite stats_fold_step, IH. cbn [stats_step artists]. fold (artist_of s).
    destruct (str_eqb (artist_of s) []) eqn:E1; cbn [negb andb].
    + apply str_eqb_eq in E1. split.
      * intros [H | (s' & Hs' & Ha)]; [auto | right; exists s'; simpl; auto].
      * intros [H | (s' & [<- | Hs'] & Ha & Hn1 & Hn2)];
          [auto | congruence | right; exists s'; auto].
    + destruct (str_eqb (artist_of s) (lit "Unknown Artist")) eqn:E2; cbn [negb].
      * apply str_eqb_eq in E2. split.
        -- intros [H | (s' & Hs' & Ha)]; [auto | right; exists s'; simpl; auto].
        -- intros [H | (s' & [<- | Hs'] & Ha & Hn1 & Hn2)];
             [auto | congruence | right; exists s'; auto].
      * apply str_eqb_neq in E1, E2. rewrite set_add_In. split.
        -- intros [[-> | H] | (s' & Hs' & Ha)];
             [right; exists s; simpl; auto | auto | right; exists s'; simpl; auto].
        -- intros [H | (s' & [<- | Hs'] & Ha & Hn1 & Hn2)];
             [auto | left; left; auto | right; exists s'; auto].
Qed.

Lemma stats_fold_artists_NoDup (songs : list song) (acc : stats_acc) :
  NoDup (artists acc) -> NoDup (artists (fold_left stats_step songs acc)).
Proof.
  revert acc; induction songs as [|s songs IH]; intros acc H; [exact H|].
  rewrite stats_fold_step. apply IH. cbn [stats_step artists].
  destruct (_ && _); [now apply set_add_NoDup | exact H].
Qed.

Lemma stats_fold_categories (songs : list song) (acc : stats_acc) :
  all_categories (fold_left stats_step songs acc)
  = fold_left (fun a s => fold_left set_add (field_or (categories s) []) a) songs
      (all_categories acc).
Proof.
  revert acc; induction songs as [|s songs IH]; intro acc; [reflexivity|].
  rewrite stats_fold_step, IH. reflexivity.
Qed.

Lemma get_stats_repo (g : github) : status (get_stats g) = 200 -> repo g = true.
Proof.
  unfold get_stats, get_songs_data. destruct (repo g); [reflexivity|]. simpl. discriminate.
Qed.

(** X17: in every 200 answer of the stats route, total_artists counts the
    distinct artists of the catalog, a song without artist counting under
    Unknown, and the empty name and Unknown Artist not counting. *)
Theorem stats_counts_distinct_artists (g : github) :
  status (get_stats g) = 200 ->
  exists songs l,
    sheets_file g = Sheets songs
    /\ int_field (get_stats g) "total_artists" = Some (Z.of_nat (length l))
    /\ NoDup l
    /\ forall a, In a l
                 <-> exists s, In s songs /\ artist_of s = a /\ a <> []
                               /\ a <> lit "Unknown Artist".
Proof.
  intro H. destruct (get_stats_ok g H) as (songs & u & f & Hs & Hf).
  exists songs, (artists (stats_loop songs)). split; [exact Hs|]. split; [|split].
  - unfold int_field. rewrite Hf. reflexivity.
  - apply stats_fold_artists_NoDup. constructor.
  - intro a. unfold stats_loop. rewrite stats_fold_artists. simpl. tauto.
Qed.

Lemma stats_counts_distinct_artists_witness :
  exists songs l,
    sheets_file tagged_store = Sheets songs
    /\ int_field (get_stats tagged_store) "total_artists" = Some (Z.of_nat (length l))
    /\ NoDup l
    /\ forall a, In a l
                 <-> exists s, In s songs /\ artist_of s = a /\ a <> []
                               /\ a <> lit "Unknown Artist".
Proof. apply (stats_counts_distinct_artists tagged_store). reflexivity. Defined.

(** X18: in every 200 answer of the stats route, total_songs is the count of
    the two list routes and total_categories the count of the categories
    route. *)
Theorem stats_totals_agree_with_lists (g : github) :
  status (get_stats g) = 200 ->
  int_field (get_stats g) "total_songs" = int_field (get_songs g) "count"
  /\ int_field (get_stats g) "total_songs" = int_field (get_songs_full g) "count"
  /\ int_field (get_stats g) "total_categories" = int_field (get_categories g) "count".
Proof.
  intro H. destruct (get_stats_ok g H) as (songs & u & f & Hs & Hf).
  pose proof (get_stats_repo g H) as Hr.
  unfold int_field. rewrite Hf.
  unfold get_songs, get_songs_full, get_categories, get_songs_data. rewrite Hr, Hs.
  cbn [negb truthy]. rewrite length_map.
  unfold stats_loop. rewrite stats_fold_categories.
  repeat split.
Qed.

Lemma stats_totals_agree_with_lists_witness :
  int_field (get_stats tagged_store) "total_songs" = int_field (get_songs tagged_store) "count"
  /\ int_field (get_stats tagged_store) "total_songs"
     = int_field (get_songs_full tagged_store) "count"
  /\ int_field (get_stats tagged_store) "total_categories"
     = int_field (get_categories tagged_store) "count".
Proof. apply (stats_totals_agree_with_lists tagged_store). reflexivity. Defined.

(** X19: with the catalog loaded, a failure to read the favorites does not fail
    the stats route: it answers 200 with no users and no favorites. *)
Theorem stats_survive_favorites_failure (g : github) (songs : list song) :
  catalog_is g songs ->
  read_fails g ->
  status (get_stats g) = 200
  /\ int_field (get_stats g) "total_users" = Some 0%Z
  /\ int_field (get_stats g) "total_favorites" = Some 0%Z
  /\ int_field (get_stats g) "total_songs" = Some (Z.of_nat (length songs)).
Proof.
  intros [Hr Hs] Hf. destruct (read_fails_all_favorites g Hf) as [e He].
  unfold int_field, get_stats, get_songs_data. rewrite Hr, Hs, He. cbn [negb truthy].
  repeat split.
Qed.

Lemma stats_survive_favorites_failure_witness :
  status (get_stats tagged_store) = 200
  /\ int_field (get_stats tagged_store) "total_users" = Some 0%Z
  /\ int_field (get_stats tagged_store) "total_favorites" = Some 0%Z
  /\ int_field (get_stats tagged_store) "total_songs" = Some 3%Z.
Proof.
  apply (stats_survive_favorites_failure tagged_store tagged_catalog).
  - split; reflexivity.
  - right. left. now eexists.
Defined.

(** ** The random route *)

Section RandomProps.
Variable randbelow : nat -> nat.

(** X20: with the catalog loaded and the drawn index in range, the random route
    answers 404 exactly on the empty catalog and otherwise 200 with a song
    of the catalog. *)
Theorem random_song_is_from_catalog (g : github) (songs : list song) :
  catalog_is g songs ->
  (forall n, 0 < n -> randbelow n < n) ->
  (songs = []
   /\ get_random_song randbelow g = error_response (Some (lit "No songs available")) 404)
  \/ (exists s, In s songs
                /\ get_random_song randbelow g = {| status := 200; body := json_of_song s |}).
Proof.
  intros [Hr Hs] Hrand. unfold get_random_song, get_songs_data. rewrite Hr, Hs.
  cbn [negb truthy]. destruct songs as [|s0 songs]; [left; split; reflexivity|].
  right. specialize (Hrand (length (s0 :: songs))).
  destruct (nth_error (s0 :: songs) (randbelow (length (s0 :: songs)))) as [s|] eqn:E.
  - exists s. split; [eapply nth_error_In; exact E | reflexivity].
  - apply nth_error_None in E. simpl in Hrand, E. lia.
Qed.

End RandomProps.

Lemma random_song_is_from_catalog_witness :
  (tagged_catalog = []
   /\ get_random_song first_index tagged_store
      = error_response (Some (lit "No songs available")) 404)
  \/ (exists s, In s tagged_catalog
                /\ get_random_song first_index tagged_store
                   = {| status := 200; body := json_of_song s |}).
Proof.
  apply (random_song_is_from_catalog first_index tagged_store tagged_catalog).
  - split; reflexivity.
  - intros n Hn. exact Hn.
Defined.

(** ** A catalog that does not load *)

Lemma catalog_fails_data (g : github) (msg : pystr) :
  catalog_fails g msg -> get_songs_data g = (None, Some msg) /\ truthy (Some msg) = true.
Proof.
  intros (Hm & [[Hr ->] | [Hr Hs]]); unfold get_songs_data; rewrite Hr; cbn [negb].
  - split; reflexivity.
  - rewrite Hs. split; [reflexivity|]. destruct msg; [congruence | reflexivity].
Qed.

Section CatalogFailure.
Variable lower : pystr -> pystr.
Variable randbelow : nat -> nat.

(** X21: when the catalog does not load, every catalog route answers 500 with
    the load message as the error, the search route for a query that is not
    blank. *)
Theorem catalog_failure_is_500 (g : github) (msg : pystr) :
  catalog_fails g msg ->
  let failure := error_response (Some msg) 500 in
  get_songs g = failure
  /\ get_songs_full g = failure
  /\ (forall song_id, get_song g song_id = failure)
  /\ (forall args, strip (lower (dict_get_default args (lit "q") [])) <> [] ->
                   search_songs lower g args = failure)
  /\ get_categories g = failure
  /\ (forall c, get_songs_by_category lower g c = failure)
  /\ get_stats g = failure
  /\ get_random_song randbelow g = failure.
Proof.
  intros H failure. destruct (catalog_fails_data g msg H) as [Hd Ht].
  unfold get_songs, get_songs_full, get_song, search_songs, get_categories,
    get_songs_by_category, get_stats, get_random_song.
  rewrite Hd, Ht. repeat split; try reflexivity.
  intros args Hq.
  match goal with |- match ?q with _ => _ end = _ => change q with
      (strip (lower (dict_get_default args (lit "q") []))) end.
  destruct (strip (lower (dict_get_default args (lit "q") []))); [congruence | reflexivity].
Qed.

End CatalogFailure.

Lemma catalog_failure_is_500_witness :
  let failure := error_response (Some (lit "timeout")) 500 in
  get_songs broken_catalog_store = failure
  /\ get_songs_full broken_catalog_store = failure
  /\ (forall song_id, get_song broken_catalog_store song_id = failure)
  /\ (forall args, strip (dict_get_default args (lit "q") []) <> [] ->
                   search_songs (fun s => s) broken_catalog_store args = failure)
  /\ get_categories broken_catalog_store = failure
  /\ (forall c, get_songs_by_category (fun s => s) broken_catalog_store c = failure)
  /\ get_stats broken_catalog_store = failure
  /\ get_random_song first_index broken_catalog_store = failure.
Proof.
  apply (catalog_failure_is_500 (fun s => s) first_index broken_catalog_store (lit "timeout")).
  split; [discriminate|]. right. split; reflexivity.
Defined.

(** ** The user count *)

(** X22: the user count route never falls to the internal error handler: it
    answers 500 with the read error, or 200 with the users of the store,
    distinct, and their number. *)
Theorem user_count_lists_distinct_users (g : github) :
  (exists e, snd (get_all_favorites g) = Some e /\ e <> []
             /\ get_user_count g = error_response (Some e) 500)
  \/ (exists d, fst (get_all_favorites g) = JObj d
                /\ NoDup (map fst d)
                /\ get_user_count g
                   = jsonify [(lit "total_users", JInt (Z.of_nat (length d)));
                              (lit "users", JArr (map JStr (map fst d)))] 200).
Proof.
  unfold get_user_count. destruct (get_all_favorites_shape g) as (d & Hd & Hn).
  destruct (get_all_favorites g) as [all_favs error]. cbn [fst snd] in *. subst all_favs.
  destruct error as [[|c e]|]; cbn [truthy].
  - right. exists d. cbn [py_len py_keys bind]. rewrite ?length_map. auto.
  - left. exists (c :: e). repeat split. discriminate.
  - right. exists d. cbn [py_len py_keys bind]. rewrite ?length_map. auto.
Qed.

(** ** Listed ids and get by id *)

Lemma get_song_loop_some (song_id : pystr) (songs : list song) (s : song) :
  In s songs ->
  song_matches song_id s = true ->
  exists s', In s' songs
             /\ song_matches song_id s' = true
             /\ get_song_loop song_id songs = {| status := 200; body := json_of_song s' |}.
Proof.
  induction songs as [|x songs IH]; [intros []|].
  intros Hin Hm. cbn [get_song_loop]. destruct (song_matches song_id x) eqn:E.
  - exists x. split; [now left | now split].
  - destruct Hin as [-> | Hin]; [congruence|].
    destruct (IH Hin Hm) as (s' & Hs' & Hm' & Hg). exists s'. split; [now right | now split].
Qed.



(** ** Search results *)

Section SearchResults.
Variable lower : pystr -> pystr.


End SearchResults.

